(** * FeedbackAI-Analyzer: the agent loop, the vector store, the retriever
      factory and the evaluation harness, embedded from the Python sources.

    Python dictionaries are [gmap]s keyed by strings, lists are [list]s,
    exceptions are values of [exn] carried by the [result] monad, and the
    calls to outside providers (chat model, embeddings, vector store, tools)
    are parameters of the functions that make them. *)

From stdpp Require Import base option list strings pretty gmap sorting.
From Stdlib Require Import Ascii QArith Lqa.

Close Scope Q_scope.
Local Open Scope string_scope.
Local Open Scope list_scope.

(** ** Python values shared by every module *)
Module Py.

(** An exception object, an instance of [Exception]: its class and the text
    [str(e)] yields. *)
Record exn := Exn { exn_class : string; exn_msg : string }.

Definition str (e : exn) : string := exn_msg e.

Definition ValueError (msg : string) : exn := Exn "ValueError" msg.
Definition KeyError (msg : string) : exn := Exn "KeyError" msg.
Definition IndexError (msg : string) : exn := Exn "IndexError" msg.
Definition AttributeError (msg : string) : exn := Exn "AttributeError" msg.

(** A computation either returns or raises. *)
Inductive result (A : Type) : Type :=
| Ok (a : A)
| Raise (e : exn).
Arguments Ok {A} a.
Arguments Raise {A} e.

#[global] Instance result_ret : MRet result := fun A a => Ok a.
#[global] Instance result_bind : MBind result :=
  fun A B f m => match m with Ok a => f a | Raise e => Raise e end.

(** [try: body except Exception as e: handler(e)] *)
Definition try_except {A} (body : result A) (handler : exn -> result A) : result A :=
  match body with
  | Ok a => Ok a
  | Raise e => handler e
  end.

Definition raises {A} (r : result A) : bool :=
  match r with Ok _ => false | Raise _ => true end.

(** Truth value of a [str]: only the empty string is false. *)
Definition truthy (s : string) : bool :=
  match s with EmptyString => false | String _ _ => true end.

(** [a or b] on strings. *)
Definition or_else (a b : string) : string := if truthy a then a else b.

(** [xs[-1]] *)
Definition last_item {A} (xs : list A) : result A :=
  match last xs with
  | Some x => Ok x
  | None => Raise (IndexError "list index out of range")
  end.

End Py.
Import Py.

(** ** backend/agent/core.py *)
Module Agent.

Record ToolCall := { tc_name : string; tc_args : string; tc_id : string }.

(** The three message classes that occur in a transcript.  Only an
    [AIMessage] has the attribute [tool_calls]. *)
Inductive BaseMessage :=
| HumanMessage (content : string)
| AIMessage (content : string) (tool_calls : list ToolCall)
| ToolMessage (content : string) (tool_call_id : string).

Definition content (m : BaseMessage) : string :=
  match m with
  | HumanMessage c => c
  | AIMessage c _ => c
  | ToolMessage c _ => c
  end.

(** [getattr(m, 'tool_calls')], [None] when [hasattr] is false. *)
Definition tool_calls_attr (m : BaseMessage) : option (list ToolCall) :=
  match m with
  | AIMessage _ tcs => Some tcs
  | _ => None
  end.

(** [class AgentState(TypedDict)]: [messages], reduced by [lambda x, y: x + y]. *)
Record AgentState := { messages : list BaseMessage }.

(** What a node returns: a partial state, a dict that may hold ["messages"]. *)
Abbreviation update := (gmap string (list BaseMessage)).

Definition apply_update (st : AgentState) (u : update) : AgentState :=
  match u !! "messages" with
  | Some ms => {| messages := messages st ++ ms |}
  | None => st
  end.

(** The chat model bound to the tools, and the prebuilt tool node. *)
Record Runtime := {
  invoke_model : list BaseMessage -> result BaseMessage;
  tool_node : AgentState -> result update;
  (** the graph library's bound on super-steps and the text of the error it
      raises when the bound is exhausted *)
  recursion_limit : nat;
  recursion_msg : string;
  (** whether the stream closes with an ["__end__"] event holding the state *)
  emits_end : bool
}.

(** [call_model] *)
Definition call_model (rt : Runtime) (st : AgentState) : result update :=
  response ← invoke_model rt (messages st);
  mret ({[ "messages" := [response] ]} : update).

(** [should_continue] *)
Definition should_continue (st : AgentState) : result string :=
  m ← last_item (messages st);
  match tool_calls_attr m with
  | None => Raise (AttributeError "tool_calls")
  | Some [] => mret "end"
  | Some (_ :: _) => mret "continue"
  end.

Inductive node := agent | action | END.

Definition node_name (n : node) : string :=
  match n with agent => "agent" | action => "action" | END => "__end__" end.

(** [add_conditional_edges("agent", should_continue, {...})] *)
Definition path_map : gmap string node :=
  {[ "continue" := action; "end" := END ]}.

(** The node scheduled after [n] has run and its update was applied. *)
Definition next_node (n : node) (st : AgentState) : result node :=
  match n with
  | agent =>
      r ← should_continue st;
      match path_map !! r with
      | Some n' => mret n'
      | None => Raise (KeyError r)
      end
  | action => mret agent
  | END => mret END
  end.

Definition run_node (rt : Runtime) (n : node) (st : AgentState) : result update :=
  match n with
  | agent => call_model rt st
  | action => tool_node rt st
  | END => mret (∅ : update)
  end.

(** One super-step of the compiled graph: run node [n], merge its update,
    follow the edge. *)
Definition step (rt : Runtime) (n : node) (st : AgentState)
  : result (update * AgentState * node) :=
  u ← run_node rt n st;
  let st' := apply_update st u in
  n' ← next_node n st';
  mret (u, st', n').

(** [n] super-steps, without any bound of the runtime. *)
Fixpoint steps (rt : Runtime) (k : nat) (n : node) (st : AgentState)
  : result (AgentState * node) :=
  match k with
  | 0 => mret (st, n)
  | S k' =>
      match n with
      | END => mret (st, END)
      | _ =>
          '(_, st', n') ← step rt n st;
          steps rt k' n' st'
      end
  end.

(** One streamed event: a dict from a node's name to what it produced. *)
Abbreviation event := (list (string * update)).

Definition GraphRecursionError (rt : Runtime) : exn :=
  Exn "GraphRecursionError" (recursion_msg rt).

(** [agent_executor.astream(inputs)]: the events yielded, and the exception
    that ended the stream if one did. *)
Fixpoint astream_from (rt : Runtime) (fuel : nat) (n : node) (st : AgentState)
  : list event * option exn :=
  match n with
  | END =>
      (if emits_end rt
       then [[("__end__", ({[ "messages" := messages st ]} : update))]]
       else [], None)
  | _ =>
      match fuel with
      | 0 => ([], Some (GraphRecursionError rt))
      | S fuel' =>
          match step rt n st with
          | Raise e => ([], Some e)
          | Ok (u, st', n') =>
              let '(evs, exc) := astream_from rt fuel' n' st' in
              ([(node_name n, u)] :: evs, exc)
          end
      end
  end.

Definition astream (rt : Runtime) (inputs : AgentState) : list event * option exn :=
  astream_from rt (recursion_limit rt) agent inputs.

(** What [analyze] needs of the compiled graph: its event stream. *)
Record Executor := { astream_of : AgentState -> list event * option exn }.

(** [graph_builder.compile()] *)
Definition compile (rt : Runtime) : Executor := {| astream_of := astream rt |}.

(** The two branches of the innermost loop body of [analyze]. *)
Definition visit (final_response : string) (item : string * update) : string :=
  let '(nd, values) := item in
  if decide (nd = "__end__") then
    match values !! "messages" with
    | Some ms =>
        match last ms with
        | Some m => content m
        | None => final_response
        end
    | None => final_response
    end
  else if decide (nd = "agent") then
    match values !! "messages" with
    | Some ms =>
        match last ms with
        | Some last_message =>
            match tool_calls_attr last_message with
            | None | Some [] => content last_message
            | Some (_ :: _) => final_response
            end
        | None => final_response
        end
    | None => final_response
    end
  else final_response.

Definition consume_from (acc : string) (events : list event) : string :=
  foldl (fun acc ev => foldl visit acc ev) acc events.

Definition consume (events : list event) : string := consume_from "" events.

Definition fallback : string :=
  "I apologize, but I couldn't generate a response. Please try again.".

Definition error_prefix : string := "An error occurred while analyzing your query: ".

Definition inputs_of (query : string) : AgentState :=
  {| messages := [HumanMessage query] |}.

(** [FeedbackAnalyzer.analyze]; [get_agent_executor] is the outcome of
    building (or fetching) the compiled graph. *)
Definition analyze (get_agent_executor : result Executor) (query : string)
  : result string :=
  try_except
    (agent_executor ← get_agent_executor;
     let inputs := inputs_of query in
     let '(events, exc) := astream_of agent_executor inputs in
     match exc with
     | Some e => Raise e
     | None => mret (or_else (consume events) fallback)
     end)
    (fun e => mret (error_prefix +:+ str e)).

(** An item of the stream that assigns [final_response]: the final state, or
    a response of the model that carries no tool call. *)
Definition sets_answer (item : string * update) : bool :=
  let '(nd, values) := item in
  match values !! "messages" ≫= last with
  | None => false
  | Some m =>
      bool_decide (nd = "__end__")
      || (bool_decide (nd = "agent")
          && match tool_calls_attr m with Some (_ :: _) => false | _ => true end)
  end.

(** [app/main.py]: the endpoint wraps the answer in an [AnalysisResponse]. *)
Record AnalysisResponse := { response : string }.

Definition analyze_feedback (get_agent_executor : result Executor) (query : string)
  : result AnalysisResponse :=
  r ← analyze get_agent_executor query;
  mret {| response := r |}.

(** Two stub runtimes: a model that answers [text] at once, and a model that
    asks for the feedback tool on every turn. *)
Definition limit_msg : string :=
  "Recursion limit of 25 reached without hitting a stop condition.".

Definition answering (text : string) : Runtime :=
  {| invoke_model := fun _ => Ok (AIMessage text []);
     tool_node := fun _ => Ok (∅ : update);
     recursion_limit := 25;
     recursion_msg := limit_msg;
     emits_end := false |}.

Definition search_call : ToolCall :=
  {| tc_name := "feedback_search_tool"; tc_args := "dark mode"; tc_id := "call_1" |}.

Definition always_tool : Runtime :=
  {| invoke_model := fun _ => Ok (AIMessage "" [search_call]);
     tool_node := fun _ => Ok ({[ "messages" := [ToolMessage "No complaints." "call_1"] ]} : update);
     recursion_limit := 25;
     recursion_msg := limit_msg;
     emits_end := false |}.

(** A stream that stops after one tool round without a final response. *)
Definition cut_short : Executor :=
  {| astream_of := fun _ =>
       ([[("agent", ({[ "messages" := [AIMessage "" [search_call]] ]} : update))];
         [("action", ({[ "messages" := [ToolMessage "No complaints." "call_1"] ]} : update))]],
        None) |}.

#[global] Instance node_eq_dec : EqDecision node.
Proof. solve_decision. Defined.

(** The same runtime with the closing ["__end__"] event switched on or off. *)
Definition set_emits_end (b : bool) (rt : Runtime) : Runtime :=
  {| invoke_model := invoke_model rt; tool_node := tool_node rt;
     recursion_limit := recursion_limit rt; recursion_msg := recursion_msg rt;
     emits_end := b |}.

(** A stub model that asks for the feedback tool once, then answers. *)
Definition one_round : Runtime :=
  {| invoke_model := fun ms =>
       match last ms with
       | Some (ToolMessage _ _) => Ok (AIMessage "Users ask for dark mode." [])
       | _ => Ok (AIMessage "" [search_call])
       end;
     tool_node := fun _ =>
       Ok ({[ "messages" := [ToolMessage "3 requests for dark mode" "call_1"] ]} : update);
     recursion_limit := 25;
     recursion_msg := limit_msg;
     emits_end := true |}.

End Agent.

(** ** app/agent/storage/vector_store.py *)
Module VectorStore.

(** *** Text *)

(** [str.isspace] on the code points below 256. *)
Definition is_space (a : ascii) : bool :=
  let n := nat_of_ascii a in
  ((9 <=? n) && (n <=? 13) || (28 <=? n) && (n <=? 32) || (n =? 133) || (n =? 160))%nat.

Fixpoint lstrip (s : string) : string :=
  match s with
  | String a r => if is_space a then lstrip r else s
  | EmptyString => EmptyString
  end.

Fixpoint rstrip (s : string) : string :=
  match s with
  | EmptyString => EmptyString
  | String a r =>
      match rstrip r with
      | EmptyString => if is_space a then EmptyString else String a EmptyString
      | r' => String a r'
      end
  end.

(** [s.strip()] *)
Definition strip (s : string) : string := rstrip (lstrip s).

Fixpoint all_space (s : string) : bool :=
  match s with
  | EmptyString => true
  | String a r => is_space a && all_space r
  end.

(** *** Documents, the index and the outside world *)

Record Document := { page_content : string; metadata : gmap string string }.

Record Qdrant := { qid : nat; collection_name : string; points : list Document }.

Record VectorStoreRetriever := { rid : nat; vectorstore : Qdrant }.

(** Calls that leave the process. *)
Inductive call :=
| LoadCSV (path : string)
| InitEmbeddings (model : string)
| FromDocuments (chunks : list Document).

(** The next object identity to hand out, and the calls made so far. *)
Record World := { next_id : nat; calls : list call }.

Definition record_call (c : call) (w : World) : World :=
  {| next_id := next_id w; calls := calls w ++ [c] |}.

Definition allocate (w : World) : World :=
  {| next_id := S (next_id w); calls := calls w |}.

(** The collaborators: the CSV loader, the text splitter's [split_text], the
    construction of the embeddings client, and embedding plus upload of the
    chunks. *)
Record Env := {
  load : string -> result (list Document);
  split_text : nat -> nat -> string -> list string;
  embeddings_init : string -> result ();
  index_documents : list Document -> result ();
  similarity_search : Qdrant -> string -> result (list Document)
}.

Record FeedbackVectorStore := {
  csv_path : string;
  chunk_size : nat;
  chunk_overlap : nat;
  _vector_store : option Qdrant;
  _retriever : option VectorStoreRetriever
}.

(** [FeedbackVectorStore(csv_path, chunk_size, chunk_overlap)] *)
Definition init (path : string) (size overlap : nat) : FeedbackVectorStore :=
  {| csv_path := path; chunk_size := size; chunk_overlap := overlap;
     _vector_store := None; _retriever := None |}.

(** [doc.page_content = doc.metadata.get("feedback_text", "")] *)
Definition use_feedback_text (doc : Document) : Document :=
  {| page_content := default "" (metadata doc !! "feedback_text");
     metadata := metadata doc |}.

(** [doc.page_content and doc.page_content.strip()] as a condition *)
Definition has_content (doc : Document) : bool :=
  truthy (page_content doc) && truthy (strip (page_content doc)).

(** [text_splitter.split_documents(docs)]: every document is cut by
    [split_text], each piece keeping the document's metadata. *)
Definition split_documents (env : Env) (size overlap : nat) (docs : list Document)
  : list Document :=
  flat_map (fun d =>
     map (fun piece => {| page_content := piece; metadata := metadata d |})
         (split_text env size overlap (page_content d))) docs.

(** The chunks the index is built from: what is left of the loaded rows. *)
Definition chunks_of (env : Env) (self : FeedbackVectorStore) (docs : list Document)
  : list Document :=
  split_documents env (chunk_size self) (chunk_overlap self)
    (List.filter has_content (map use_feedback_text docs)).

Definition no_documents : string := "No documents loaded from CSV file".
Definition no_valid_documents : string := "No valid documents with content found".
Definition no_chunks : string := "No chunks created from documents".

(** [_setup_vector_store]; the handler of its [try] prints and re-raises. *)
Definition _setup_vector_store (env : Env) (self : FeedbackVectorStore) (w : World)
  : result Qdrant * World :=
  let w1 := record_call (LoadCSV (csv_path self)) w in
  match load env (csv_path self) with
  | Raise e => (Raise e, w1)
  | Ok docs =>
      match docs with
      | [] => (Raise (ValueError no_documents), w1)
      | _ :: _ =>
          let docs := map use_feedback_text docs in
          let docs := List.filter has_content docs in
          match docs with
          | [] => (Raise (ValueError no_valid_documents), w1)
          | _ :: _ =>
              let chunks :=
                split_documents env (chunk_size self) (chunk_overlap self) docs in
              match chunks with
              | [] => (Raise (ValueError no_chunks), w1)
              | _ :: _ =>
                  let w2 := record_call (InitEmbeddings "text-embedding-3-small") w1 in
                  match embeddings_init env "text-embedding-3-small" with
                  | Raise e => (Raise e, w2)
                  | Ok _ =>
                      let w3 := record_call (FromDocuments chunks) w2 in
                      match index_documents env chunks with
                      | Raise e => (Raise e, w3)
                      | Ok _ =>
                          (Ok {| qid := next_id w3;
                                 collection_name := "client_feedback";
                                 points := chunks |},
                           allocate w3)
                      end
                  end
              end
          end
      end
  end.

Definition set_vector_store (self : FeedbackVectorStore) (v : Qdrant) :=
  {| csv_path := csv_path self; chunk_size := chunk_size self;
     chunk_overlap := chunk_overlap self;
     _vector_store := Some v; _retriever := _retriever self |}.

Definition set_retriever (self : FeedbackVectorStore) (r : VectorStoreRetriever) :=
  {| csv_path := csv_path self; chunk_size := chunk_size self;
     chunk_overlap := chunk_overlap self;
     _vector_store := _vector_store self; _retriever := Some r |}.

(** [get_vector_store] *)
Definition get_vector_store (env : Env) (self : FeedbackVectorStore) (w : World)
  : result Qdrant * FeedbackVectorStore * World :=
  match _vector_store self with
  | Some v => (Ok v, self, w)
  | None =>
      match _setup_vector_store env self w with
      | (Ok v, w') => (Ok v, set_vector_store self v, w')
      | (Raise e, w') => (Raise e, self, w')
      end
  end.

(** [get_retriever]; [as_retriever()] wraps the store in a new object. *)
Definition get_retriever (env : Env) (self : FeedbackVectorStore) (w : World)
  : result VectorStoreRetriever * FeedbackVectorStore * World :=
  match _retriever self with
  | Some r => (Ok r, self, w)
  | None =>
      match get_vector_store env self w with
      | (Ok v, self', w') =>
          let r := {| rid := next_id w'; vectorstore := v |} in
          (Ok r, set_retriever self' r, allocate w')
      | (Raise e, self', w') => (Raise e, self', w')
      end
  end.

(** [reset] *)
Definition reset (self : FeedbackVectorStore) : FeedbackVectorStore :=
  init (csv_path self) (chunk_size self) (chunk_overlap self).

(** The error the specification calls [EmptyCorpusError]: one of the three
    [ValueError]s that [_setup_vector_store] raises itself. *)
Definition EmptyCorpusError (e : exn) : bool :=
  bool_decide (exn_class e = "ValueError")
  && bool_decide (exn_msg e ∈ [no_documents; no_valid_documents; no_chunks]).

Definition fails_with {A} (p : exn -> bool) (r : result A) : bool :=
  match r with Ok _ => false | Raise e => p e end.

(** How often the build ran, read off the calls. *)
Definition is_load (c : call) : bool :=
  match c with LoadCSV _ => true | _ => false end.

Definition builds (w : World) : nat := length (List.filter is_load (calls w)).

(** A series of accesses to one store object. *)
Inductive access := Retriever | Store.

(** The store handle an access yields (the retriever's own store for
    [get_retriever]) and the retriever object, if any. *)
Definition perform (env : Env) (a : access) (self : FeedbackVectorStore) (w : World)
  : result (Qdrant * option VectorStoreRetriever) * FeedbackVectorStore * World :=
  match a with
  | Retriever =>
      let '(r, self', w') := get_retriever env self w in
      (r' ← r; mret (vectorstore r', Some r'), self', w')
  | Store =>
      let '(v, self', w') := get_vector_store env self w in
      (v' ← v; mret (v', None), self', w')
  end.

Fixpoint perform_all (env : Env) (accs : list access) (self : FeedbackVectorStore)
  (w : World)
  : list (result (Qdrant * option VectorStoreRetriever)) * FeedbackVectorStore * World :=
  match accs with
  | [] => ([], self, w)
  | a :: rest =>
      let '(r, self', w') := perform env a self w in
      let '(rs, self'', w'') := perform_all env rest self' w' in
      (r :: rs, self'', w'')
  end.

(** [get_retriever().invoke(query)] *)
Definition query (env : Env) (self : FeedbackVectorStore) (w : World) (q : string)
  : result (list Document) * FeedbackVectorStore * World :=
  let '(r, self', w') := get_retriever env self w in
  (r' ← r; similarity_search env (vectorstore r') q, self', w').

(** A build has succeeded and is memoized as [v]. *)
Definition settled (v : Qdrant) (self : FeedbackVectorStore) : Prop :=
  _vector_store self = Some v
  /\ forall r, _retriever self = Some r -> vectorstore r = v.

(** Sample collaborators: three rows, one with text, one blank, one without
    the column; a splitter that keeps a text whole; providers that answer. *)
Definition row (text : option string) : Document :=
  {| page_content := "source: Survey";
     metadata := match text with
                 | Some t => {[ "feedback_text" := t; "source" := "Survey" ]}
                 | None => {[ "source" := "Survey" ]}
                 end |}.

Definition sample_env (rows : list Document) (indexing : result ()) : Env :=
  {| load := fun _ => Ok rows;
     split_text := fun _ _ text => [text];
     embeddings_init := fun _ => Ok ();
     index_documents := fun _ => indexing;
     similarity_search := fun v _ => Ok (take 4 (points v)) |}.

Definition sample_rows : list Document :=
  [row (Some "Please add dark mode"); row (Some "  "); row None].

Definition sample_store : FeedbackVectorStore :=
  init "backend/data/feedback_corpus.csv" 1000 100.

Definition fresh_world : World := {| next_id := 0; calls := [] |}.

End VectorStore.

(** ** backend/models/agent.py *)
Module Models.

Record AgentConfig := {
  csv_path : string;
  model_name : string;
  temperature : Q;
  max_web_results : Z;
  chunk_size : Z;
  chunk_overlap : Z
}.

(** [AgentConfig()]: every field at its default. *)
Definition default_config : AgentConfig :=
  {| csv_path := "backend/data/feedback_corpus.csv"; model_name := "gpt-4o-mini";
     temperature := 0; max_web_results := 3; chunk_size := 1000; chunk_overlap := 100 |}.

Definition ValidationError (field : string) : exn := Exn "ValidationError" field.

(** The [ge] and [le] bounds of the fields, checked when a model is made. *)
Definition validate (c : AgentConfig) : result AgentConfig :=
  if negb (Qle_bool 0 (temperature c) && Qle_bool (temperature c) 2)
  then Raise (ValidationError "temperature")
  else if negb ((1 <=? max_web_results c) && (max_web_results c <=? 10))%Z
  then Raise (ValidationError "max_web_results")
  else if negb ((100 <=? chunk_size c) && (chunk_size c <=? 5000))%Z
  then Raise (ValidationError "chunk_size")
  else if negb ((0 <=? chunk_overlap c) && (chunk_overlap c <=? 500))%Z
  then Raise (ValidationError "chunk_overlap")
  else Ok c.

(** [FeedbackAnalyzer.__init__]: the settings handed to the vector store. *)
Definition store_of (c : AgentConfig) : VectorStore.FeedbackVectorStore :=
  VectorStore.init (csv_path c) (Z.to_nat (chunk_size c)) (Z.to_nat (chunk_overlap c)).

(** A value of the [metadata] mapping of a tool result. *)
Inductive meta :=
| MetaStr (s : string)
| MetaInt (n : nat).

(** [ToolResult]; [tr_result] is its field [result]. *)
Record ToolResult := {
  tool_name : string;
  success : bool;
  tr_result : string;
  metadata : option (gmap string meta)
}.

End Models.

(** ** backend/agent/tools/feedback_search.py *)
Module FeedbackSearch.
Import VectorStore.

(** What fills the [context] slot of a chain: the store's own retriever or
    one handed in by the caller. *)
Inductive ContextSource :=
| FromStore (r : VectorStoreRetriever)
| Custom (name : string).

(** [{"context": ..., "question": RunnablePassthrough()} | prompt | llm | parser] *)
Record Chain := { context : ContextSource; prompt : string; llm : string }.

Definition template : string :=
  "Answer the user's question based ONLY on the following context:".

(** The collaborators: the vector store's, the construction of the chat
    client, and a run of the chain (retrieval, then completion). *)
Record Providers := {
  store_env : Env;
  chat_init : string -> result ();
  invoke : Chain -> string -> result string
}.

Record FeedbackSearchTool := {
  vector_store : FeedbackVectorStore;
  _rag_chain : option Chain
}.

(** [get_rag_chain]: the retriever is fetched before the chat client is made. *)
Definition get_rag_chain (p : Providers) (self : FeedbackSearchTool) (w : World)
  : result Chain * FeedbackSearchTool * World :=
  match _rag_chain self with
  | Some c => (Ok c, self, w)
  | None =>
      let '(r, vs, w') := get_retriever (store_env p) (vector_store self) w in
      let kept := {| vector_store := vs; _rag_chain := None |} in
      match r with
      | Raise e => (Raise e, kept, w')
      | Ok r' =>
          match chat_init p "gpt-4o-mini" with
          | Raise e => (Raise e, kept, w')
          | Ok _ =>
              let c := {| context := FromStore r'; prompt := template;
                          llm := "gpt-4o-mini" |} in
              (Ok c, {| vector_store := vs; _rag_chain := Some c |}, w')
          end
      end
  end.

(** The body of the [try] in [search]. *)
Definition rag_answer (p : Providers) (self : FeedbackSearchTool) (w : World)
  (query : string) : result string * FeedbackSearchTool * World :=
  let '(c, self', w') := get_rag_chain p self w in
  (rag_chain ← c; invoke p rag_chain query, self', w').

Definition error_marker : string := "Error searching feedback database: ".

(** [FeedbackSearchTool.search], which is all that the tool made by
    [create_feedback_search_tool] runs. *)
Definition search (p : Providers) (self : FeedbackSearchTool) (w : World)
  (query : string) : result string * FeedbackSearchTool * World :=
  let '(r, self', w') := rag_answer p self w query in
  (try_except r (fun e => mret (error_marker +:+ str e)), self', w').

(** The tool made by [create_feedback_search_tool_with_retriever]: its chain
    exists already when the tool is called. *)
Definition feedback_search_tool (p : Providers) (rag_chain : Chain) (query : string)
  : result string :=
  try_except (invoke p rag_chain query) (fun e => mret (error_marker +:+ str e)).

(** Stub providers: an empty CSV file, and a language model out of quota. *)
Definition empty_corpus : Providers :=
  {| store_env := sample_env [] (Ok ());
     chat_init := fun _ => Ok ();
     invoke := fun _ _ => Ok "Users ask for dark mode." |}.

Definition out_of_quota : Providers :=
  {| store_env := sample_env sample_rows (Ok ());
     chat_init := fun _ => Ok ();
     invoke := fun _ _ => Raise (Exn "ProviderError" "quota exceeded") |}.

Definition new_tool : FeedbackSearchTool :=
  {| vector_store := sample_store; _rag_chain := None |}.

(** [FeedbackSearchTool.search_with_metadata] *)
Definition search_with_metadata (p : Providers) (self : FeedbackSearchTool) (w : World)
  (query : string) : result Models.ToolResult * FeedbackSearchTool * World :=
  let '(r, self', w') := rag_answer p self w query in
  (try_except
     (answer ← r;
      mret {| Models.tool_name := "feedback_search"; Models.success := true;
              Models.tr_result := answer;
              Models.metadata := Some {[ "query" := Models.MetaStr query ]} |})
     (fun e =>
        mret {| Models.tool_name := "feedback_search"; Models.success := false;
                Models.tr_result := error_marker +:+ str e;
                Models.metadata :=
                  Some {[ "query" := Models.MetaStr query;
                          "error" := Models.MetaStr (str e) ]} |}),
   self', w').

End FeedbackSearch.

(** ** evaluation/retrievers.py *)
Module Retrievers.

Inductive Retriever :=
| VectorStoreRetriever (k : nat)
| BM25Retriever (k : nat)
| MultiQueryRetriever (base : Retriever)
| ParentDocumentRetriever (child_size parent_size : nat)
| ContextualCompressionRetriever (base : Retriever)
| EnsembleRetriever (members : list Retriever) (weights : list Q).

(** Calls on the embedding provider, the vector store, the language model and
    the rerank provider, as a call-counting stub would see them. *)
Inductive call :=
| FromDocuments (chunks : nat)
| AsRetriever (k : nat)
| BM25FromDocuments
| MultiQueryFromLLM
| AddDocuments
| CohereRerankInit.

Record World := { calls : list call }.

Definition record_call (c : call) (w : World) : World :=
  {| calls := calls w ++ [c] |}.

(** [RetrieverFactory.__init__]: the chunks are embedded and stored once,
    when the factory is set up. *)
Definition factory_init (chunks : nat) (w : World) : World :=
  record_call (FromDocuments chunks) w.

(** Constructions of the libraries that may fail. *)
Record Providers := {
  bm25_from_documents : result ();
  multi_query_from_llm : result ();
  add_documents : result ();
  cohere_rerank : result ()
}.

(** [os.environ] and [os.getenv] *)
Abbreviation environ := (gmap string string).

Definition getenv (env : environ) (name : string) : option string := env !! name.

(** [not os.getenv(name)]: unset, or set to the empty string. *)
Definition not_set (env : environ) (name : string) : bool :=
  match getenv env name with
  | None => true
  | Some v => negb (truthy v)
  end.

Definition create_naive_retriever (k : nat) (w : World) : result Retriever * World :=
  (Ok (VectorStoreRetriever k), record_call (AsRetriever k) w).

Definition create_bm25_retriever (p : Providers) (k : nat) (w : World)
  : result Retriever * World :=
  (_ ← bm25_from_documents p; mret (BM25Retriever k), record_call BM25FromDocuments w).

Definition create_multi_query_retriever (p : Providers) (base_k : nat) (w : World)
  : result Retriever * World :=
  let w1 := record_call (AsRetriever base_k) w in
  (_ ← multi_query_from_llm p; mret (MultiQueryRetriever (VectorStoreRetriever base_k)),
   record_call MultiQueryFromLLM w1).

Definition create_parent_document_retriever (p : Providers) (w : World)
  : result Retriever * World :=
  (_ ← add_documents p; mret (ParentDocumentRetriever 400 2000),
   record_call AddDocuments w).

(** The error the specification calls [MissingCredentialError]. *)
Definition MissingCredentialError : exn :=
  ValueError "COHERE_API_KEY environment variable is required for rerank retriever".

(** [create_rerank_retriever] *)
Definition create_rerank_retriever (p : Providers) (env : environ) (base_k : nat)
  (w : World) : result Retriever * World :=
  if not_set env "COHERE_API_KEY" then (Raise MissingCredentialError, w)
  else
    let w1 := record_call (AsRetriever base_k) w in
    let w2 := record_call CohereRerankInit w1 in
    (_ ← cohere_rerank p;
     mret (ContextualCompressionRetriever (VectorStoreRetriever base_k)), w2).

(** [create_ensemble_retriever] *)
Definition create_ensemble_retriever (p : Providers) (k : nat) (w : World)
  : result Retriever * World :=
  let '(bm25, w1) := create_bm25_retriever p k w in
  match bm25 with
  | Raise e => (Raise e, w1)
  | Ok bm25_retriever =>
      let '(vec, w2) := create_naive_retriever k w1 in
      (vector_retriever ← vec;
       mret (EnsembleRetriever [bm25_retriever; vector_retriever] [1 # 2; 1 # 2]%Q), w2)
  end.

(** [get_available_retrievers]: each name with its constructor, the
    parameters at their defaults. *)
Definition get_available_retrievers (p : Providers) (env : environ)
  : gmap string (World -> result Retriever * World) :=
  {[ "naive" := create_naive_retriever 10;
     "bm25" := create_bm25_retriever p 10;
     "multi_query" := create_multi_query_retriever p 10;
     "parent_document" := create_parent_document_retriever p;
     "rerank" := create_rerank_retriever p env 20;
     "ensemble" := create_ensemble_retriever p 10 ]}.

Definition strategies : list string :=
  ["naive"; "bm25"; "multi_query"; "parent_document"; "rerank"; "ensemble"].

(** Providers that answer, and an environment with the other keys only. *)
Definition working : Providers :=
  {| bm25_from_documents := Ok (); multi_query_from_llm := Ok ();
     add_documents := Ok (); cohere_rerank := Ok () |}.

Definition no_cohere_key : environ := {[ "OPENAI_API_KEY" := "sk-test" ]}.

Definition with_cohere_key : environ :=
  {[ "OPENAI_API_KEY" := "sk-test"; "COHERE_API_KEY" := "co-test" ]}.

Definition no_calls : World := {| calls := [] |}.

Definition after_init : World := factory_init 3 no_calls.

End Retrievers.

(** ** evaluation/evaluator.py *)
Module Evaluator.
Import Retrievers.

(** *** Numbers and cells *)

(** A float, with [None] for [nan]; the finite values are taken exactly. *)
Abbreviation number := (option Q).

(** [np.mean] *)
Definition np_mean (xs : list Q) : number :=
  match xs with
  | [] => None
  | _ :: _ => Some (foldr Qplus 0%Q xs / inject_Z (Z.of_nat (length xs)))%Q
  end.

(** [min(a, b)]: the first argument unless the second is smaller. *)
Definition py_min (a b : number) : number :=
  match a, b with
  | Some x, Some y => if Qlt_le_dec y x then b else a
  | _, _ => a
  end.

Definition divide (a : number) (d : Q) : number := (fun x => (x / d)%Q) <$> a.

Fixpoint words_from (in_word : bool) (s : string) : nat :=
  match s with
  | EmptyString => 0
  | String a r =>
      if VectorStore.is_space a then words_from false r
      else (if in_word then 0 else 1) + words_from true r
  end.

(** [len(s.split())] *)
Definition word_count (s : string) : nat := words_from false s.

Definition of_nat (n : nat) : Q := inject_Z (Z.of_nat n).

Inductive cell :=
| CStr (s : string)
| CFloat (x : number)
| CInt (n : nat).

(** A result record, and a row of the table made of such records. *)
Abbreviation row := (gmap string cell).

(** *** Evaluating one retriever *)

Inductive metric :=
| MList (values : list Q)
| MScalar (value : number).

Record Dataset := {
  ds_question : list string;
  ds_answer : list string;
  ds_contexts : list (list string);
  ds_ground_truth : list string
}.

(** The collaborators: whether the scoring library could be imported, its
    [evaluate], a run of the chain, a retrieval, and what the cost callback
    and the clock report for a question. *)
Record Scoring := {
  RAGAS_METRICS_AVAILABLE : bool;
  evaluate : Dataset -> result (gmap string metric);
  chain_invoke : Retriever -> string -> result string;
  retriever_invoke : Retriever -> string -> result (list string);
  callback_cost : Retriever -> string -> Q;
  elapsed : Retriever -> string -> Q
}.

Record Run := {
  answers : list string;
  contexts : list (list string);
  latencies : list Q;
  total_cost : Q
}.

Definition no_run : Run :=
  {| answers := []; contexts := []; latencies := []; total_cost := 0 |}.

(** The loop over the questions. *)
Fixpoint run_questions (sc : Scoring) (retriever : Retriever) (questions : list string)
  (acc : Run) : result Run :=
  match questions with
  | [] => mret acc
  | question :: rest =>
      answer ← chain_invoke sc retriever question;
      retrieved_contexts ← retriever_invoke sc retriever question;
      run_questions sc retriever rest
        {| answers := answers acc ++ [answer];
           contexts := contexts acc ++ [retrieved_contexts];
           latencies := latencies acc ++ [elapsed sc retriever question];
           total_cost := (total_cost acc + callback_cost sc retriever question)%Q |}
  end.

(** [extract_metric] *)
Definition extract_metric (ragas_result : gmap string metric) (key : string)
  : result number :=
  match ragas_result !! key with
  | None => Raise (KeyError key)
  | Some (MList value) => mret (np_mean value)
  | Some (MScalar value) => mret value
  end.

Definition note : string := "Basic metrics used (Ragas unavailable)".

(** [_calculate_basic_metrics] *)
Definition _calculate_basic_metrics (retriever_name : string) (answers : list string)
  (contexts : list (list string)) (questions : list string) (latencies : list Q)
  (total_cost : Q) : row :=
  let avg_answer_length := np_mean (map (fun a => of_nat (word_count a)) answers) in
  let avg_context_length :=
    np_mean (map (fun c => of_nat (word_count (String.concat " " c))) contexts) in
  <[ "retriever" := CStr retriever_name ]>
  (<[ "context_recall" := CFloat (py_min (divide avg_context_length 100) (Some 1%Q)) ]>
  (<[ "faithfulness" := CFloat (py_min (divide avg_answer_length 50) (Some 1%Q)) ]>
  (<[ "answer_relevancy" := CFloat (Some (8 # 10)%Q) ]>
  (<[ "context_precision" := CFloat (py_min (divide avg_context_length 200) (Some 1%Q)) ]>
  (<[ "avg_latency_s" := CFloat (np_mean latencies) ]>
  (<[ "total_cost_usd" := CFloat (Some total_cost) ]>
  (<[ "num_questions" := CInt (length questions) ]>
  ({[ "note" := CStr note ]})))))))).

(** The record made from the scores of the scoring library. *)
Definition scored_record (retriever_name : string) (ragas_result : gmap string metric)
  (questions : list string) (run : Run) : result row :=
  context_recall ← extract_metric ragas_result "context_recall";
  faithfulness ← extract_metric ragas_result "faithfulness";
  answer_relevancy ← extract_metric ragas_result "answer_relevancy";
  context_precision ← extract_metric ragas_result "context_precision";
  mret (<[ "retriever" := CStr retriever_name ]>
       (<[ "context_recall" := CFloat context_recall ]>
       (<[ "faithfulness" := CFloat faithfulness ]>
       (<[ "answer_relevancy" := CFloat answer_relevancy ]>
       (<[ "context_precision" := CFloat context_precision ]>
       (<[ "avg_latency_s" := CFloat (np_mean (latencies run)) ]>
       (<[ "total_cost_usd" := CFloat (Some (total_cost run)) ]>
       ({[ "num_questions" := CInt (length questions) ]} : row)))))))).

Definition basic_record (retriever_name : string) (questions : list string) (run : Run)
  : row :=
  _calculate_basic_metrics retriever_name (answers run) (contexts run) questions
    (latencies run) (total_cost run).

(** [_evaluate_single_retriever] *)
Definition _evaluate_single_retriever (sc : Scoring) (retriever_name : string)
  (retriever : Retriever) (questions ground_truths : list string) : result row :=
  run ← run_questions sc retriever questions no_run;
  let ragas_dataset :=
    {| ds_question := questions; ds_answer := answers run;
       ds_contexts := contexts run; ds_ground_truth := ground_truths |} in
  if RAGAS_METRICS_AVAILABLE sc then
    try_except
      (ragas_result ← evaluate sc ragas_dataset;
       scored_record retriever_name ragas_result questions run)
      (fun _ => mret (basic_record retriever_name questions run))
  else mret (basic_record retriever_name questions run).

(** *** Comparing retrievers *)

Definition error_record (retriever_name : string) (e : exn) : row :=
  {[ "retriever" := CStr retriever_name; "error" := CStr (str e) ]}.

(** The body of the loop for a name that is on offer. *)
Definition evaluate_named (sc : Scoring) (retriever_name : string)
  (build : World -> result Retriever * World) (questions ground_truths : list string)
  (w : World) : result row * World :=
  let '(made, w') := build w in
  (try_except
     (retriever ← made;
      _evaluate_single_retriever sc retriever_name retriever questions ground_truths)
     (fun e => mret (error_record retriever_name e)), w').

(** The loop over the requested names, gathering [results]. *)
Fixpoint collect (sc : Scoring) (available : gmap string (World -> result Retriever * World))
  (retriever_names : list string) (questions ground_truths : list string) (w : World)
  : result (list row) * World :=
  match retriever_names with
  | [] => (mret [], w)
  | retriever_name :: rest =>
      match available !! retriever_name with
      | None => collect sc available rest questions ground_truths w
      | Some build =>
          let '(r, w1) := evaluate_named sc retriever_name build questions ground_truths w in
          match r with
          | Raise e => (Raise e, w1)
          | Ok result =>
              let '(rs, w2) := collect sc available rest questions ground_truths w1 in
              (results ← rs; mret (result :: results), w2)
          end
      end
  end.

(** A column of the frame is present when some record has the key. *)
Definition has_column (c : string) (rows : list row) : bool :=
  existsb (fun r => bool_decide (is_Some (r !! c))) rows.

Definition float_at (c : string) (r : row) : number :=
  match r !! c with
  | Some (CFloat x) => x
  | _ => None
  end.

Definition score (r : row) : number := float_at "answer_relevancy" r.
Definition latency (r : row) : number := float_at "avg_latency_s" r.

(** The order of [sort_values(..., ascending=False)] on one column: larger
    first, [nan] last. *)
Definition key_ge (a b : number) : Prop :=
  match a, b with
  | Some x, Some y => (y <= x)%Q
  | _, None => True
  | None, Some _ => False
  end.

(** The library's sort of a column, as the positions of its entries in their
    new order. *)
Record Sorter := { argsort : list number -> list nat }.

(** [frame.take(indexer)] *)
Definition take_rows {A} (indexer : list nat) (rows : list A) : list A :=
  omap (fun i => rows !! i) indexer.

(** [results_df.sort_values('answer_relevancy', ascending=False)] *)
Definition sort_values (s : Sorter) (rows : list row) : list row :=
  take_rows (argsort s (score <$> rows)) rows.

(** What is asked of the sort: it permutes the positions, and the column read
    in the new order is sorted. *)
Definition sorts (s : Sorter) : Prop :=
  forall keys : list number,
    argsort s keys ≡ₚ seq 0 (length keys)
    /\ StronglySorted key_ge (take_rows (argsort s keys) keys).

(** [results_df.empty] *)
Definition is_empty (rows : list row) : bool :=
  match rows with [] => true | _ :: _ => false end.

Definition score_ge (a b : row) : Prop := key_ge (score a) (score b).

(** [compare_retrievers], from the golden questions on. *)
Definition compare_retrievers (s : Sorter) (sc : Scoring)
  (available : gmap string (World -> result Retriever * World))
  (retriever_names : list string) (questions ground_truths : list string) (w : World)
  : result (list row) * World :=
  let '(rs, w') := collect sc available retriever_names questions ground_truths w in
  (results ← rs;
   let results_df := results in
   mret (if negb (is_empty results_df) && has_column "context_recall" results_df
         then sort_values s results_df
         else results_df), w').

(** Two neighbours with equal scores of which the first is the slower. *)
Fixpoint slower_first (rows : list row) : bool :=
  match rows with
  | a :: (b :: _) as rest =>
      match score a, score b, latency a, latency b with
      | Some x, Some y, Some la, Some lb =>
          (Qeq_bool x y && negb (Qle_bool la lb)) || slower_first rest
      | _, _, _, _ => slower_first rest
      end
  | _ => false
  end.

(** What a record of the loop can be for a name: the error record, or what
    the evaluation of some retriever returned. *)
Definition record_of (sc : Scoring) (qs gts : list string) (name : string) (r : row)
  : Prop :=
  (exists e, r = error_record name e)
  \/ (exists retriever, _evaluate_single_retriever sc name retriever qs gts = Ok r).

(** *** A sort to run the harness with: merge sort on the numbered column *)

#[global] Instance key_ge_dec : RelDecision key_ge.
Proof.
  intros [x|] [y|]; simpl; [|left; exact I|right; tauto|left; exact I].
  destruct (Qlt_le_dec x y) as [H|H]; [right|left; exact H].
  by apply Qlt_not_le.
Defined.

Definition entry_ge (p q : nat * number) : Prop := key_ge p.2 q.2.

#[global] Instance entry_ge_dec : RelDecision entry_ge.
Proof. intros p q. unfold entry_ge. apply _. Defined.

Definition merge_argsort (keys : list number) : list nat :=
  (merge_sort entry_ge (zip (seq 0 (length keys)) keys)).*1.

Definition merge_sorter : Sorter := {| argsort := merge_argsort |}.

(** Stub collaborators: no scoring library, a chain that always answers, a
    vector search that takes two seconds and a keyword search that takes one. *)
Definition unscored : Scoring :=
  {| RAGAS_METRICS_AVAILABLE := false;
     evaluate := fun _ => Raise (Exn "ImportError" "ragas");
     chain_invoke := fun _ _ => Ok "Users ask for dark mode";
     retriever_invoke := fun _ _ => Ok ["Please add dark mode"; "Dark mode would help"];
     callback_cost := fun _ _ => (1 # 1000)%Q;
     elapsed := fun r _ => match r with VectorStoreRetriever _ => 2%Q | _ => 1%Q end |}.

Definition golden_questions : list string := ["What do users say about dark mode?"].
Definition golden_truths : list string := ["They ask for it."].

Definition slow : row :=
  {[ "retriever" := CStr "naive"; "context_recall" := CFloat (Some (1 # 2)%Q);
     "answer_relevancy" := CFloat (Some (8 # 10)%Q);
     "avg_latency_s" := CFloat (Some 2%Q) ]}.

Definition fast : row :=
  {[ "retriever" := CStr "bm25"; "context_recall" := CFloat (Some (1 # 2)%Q);
     "answer_relevancy" := CFloat (Some (8 # 10)%Q);
     "avg_latency_s" := CFloat (Some 1%Q) ]}.



(** What the loop over the questions has cost so far. *)
Definition cost_so_far (sc : Scoring) (retriever : Retriever) (start : Q)
  (questions : list string) : Q :=
  foldl (fun total question => (total + callback_cost sc retriever question)%Q)
        start questions.

End Evaluator.

(** ** app/agent/tools/web_search.py *)
Module WebSearch.

(** The search tool object of the library, made for a number of results. *)
Record TavilySearchResults := { tsr_max_results : nat }.

(** The collaborators: making the tool (which needs its key) and a search. *)
Record Providers := {
  tavily_init : nat -> result ();
  tavily_invoke : nat -> string -> result string
}.

Record WebSearchTool := {
  max_results : nat;
  _search_tool : option TavilySearchResults
}.

(** [WebSearchTool(max_results)] *)
Definition init (max_results : nat) : WebSearchTool :=
  {| max_results := max_results; _search_tool := None |}.

(** [get_search_tool] *)
Definition get_search_tool (p : Providers) (self : WebSearchTool)
  : result TavilySearchResults * WebSearchTool :=
  match _search_tool self with
  | Some t => (Ok t, self)
  | None =>
      match tavily_init p (max_results self) with
      | Raise e => (Raise e, self)
      | Ok _ =>
          let t := {| tsr_max_results := max_results self |} in
          (Ok t, {| max_results := max_results self; _search_tool := Some t |})
      end
  end.

(** [search_tool.invoke(query)] *)
Definition invoke (p : Providers) (t : TavilySearchResults) (query : string)
  : result string :=
  tavily_invoke p (tsr_max_results t) query.

(** The body of the [try] in [search] and in [search_with_metadata]. *)
Definition web_answer (p : Providers) (self : WebSearchTool) (query : string)
  : result string * WebSearchTool :=
  let '(t, self') := get_search_tool p self in
  (search_tool ← t; invoke p search_tool query, self').

Definition error_marker : string := "Error searching the web: ".

(** [WebSearchTool.search] *)
Definition search (p : Providers) (self : WebSearchTool) (query : string)
  : result string * WebSearchTool :=
  let '(r, self') := web_answer p self query in
  (try_except r (fun e => mret (error_marker +:+ str e)), self').

(** [WebSearchTool.search_with_metadata] *)
Definition search_with_metadata (p : Providers) (self : WebSearchTool) (query : string)
  : result Models.ToolResult * WebSearchTool :=
  let '(r, self') := web_answer p self query in
  (try_except
     (answer ← r;
      mret {| Models.tool_name := "web_search"; Models.success := true;
              Models.tr_result := answer;
              Models.metadata :=
                Some {[ "query" := Models.MetaStr query;
                        "max_results" := Models.MetaInt (max_results self) ]} |})
     (fun e =>
        mret {| Models.tool_name := "web_search"; Models.success := false;
                Models.tr_result := error_marker +:+ str e;
                Models.metadata :=
                  Some {[ "query" := Models.MetaStr query;
                          "error" := Models.MetaStr (str e) ]} |}),
   self').



End WebSearch.

(** ** evaluation/golden_dataset.py *)
Module GoldenDataset.
Import VectorStore.

(** [load_documents] *)
Definition load_documents (env : Env) (csv_path : string) : result (list Document) :=
  documents ← load env csv_path;
  mret (List.filter has_content (map use_feedback_text documents)).

Definition sample_questions : list string :=
  ["What are the main user complaints mentioned in the feedback?";
   "What features do users most frequently request?";
   "What aspects of the product do users appreciate the most?";
   "What are the common issues users face with the dashboard?";
   "How do users feel about the mobile app performance?";
   "What suggestions do users have for improving the user interface?";
   "What are the most reported bugs or technical issues?";
   "How satisfied are users with the customer support?";
   "What pricing concerns do users express?";
   "What integrations do users most frequently request?";
   "What are users saying about the product's ease of use?";
   "What features do users find confusing or difficult to use?";
   "How do users rate the product's reliability?";
   "What are the main reasons users would recommend this product?";
   "What improvements do users suggest for the onboarding process?"].

(** [xs[:n]] for an integer [n]: a negative [n] counts from the end. *)
Definition slice_to {A} (n : Z) (xs : list A) : list A :=
  if (0 <=? n)%Z then take (Z.to_nat n) xs
  else take (length xs - Z.to_nat (- n)) xs.

Definition ground_truth (i : nat) : string :=
  "Based on the feedback analysis, this question addresses key user concerns and feedback patterns observed in the data. (Generated answer "
  +:+ pretty (i + 1) +:+ ")".

Definition not_installed : exn :=
  Exn "ImportError"
      "Ragas is not properly installed. Please install ragas with: uv add ragas".

(** [generate_golden_dataset]: the frame as its rows, question and ground
    truth; [RAGAS_NEW_API] is [None] when neither import worked. *)
Definition generate_golden_dataset (env : Env) (RAGAS_NEW_API : option bool)
  (csv_path : string) (test_size : Z) : result (list (string * string)) :=
  documents ← load_documents env csv_path;
  match RAGAS_NEW_API with
  | None => Raise not_installed
  | Some _ =>
      let selected_questions :=
        slice_to (Z.min test_size (Z.of_nat (length sample_questions))) sample_questions in
      mret (imap (fun i question => (question, ground_truth i)) selected_questions)
  end.

End GoldenDataset.

(** ** app/main.py *)
Module Main.

Inductive value :=
| VStr (s : string)
| VInt (n : nat).

(** [os.stat_result], the two fields that are read. *)
Record stat_result := { st_size : N; st_mtime : Q }.

Record datetime := {
  year : nat; month : nat; day : nat; hour : nat; minute : nat; second : nat
}.

(** The file system and the clock, for the one path the endpoint reads:
    whether it exists, its [os.stat], the rows [csv.reader] yields from it
    (raising when the file cannot be opened or decoded), the local date of a
    time stamp and how the platform prints it. *)
Record Files := {
  path_exists : bool;
  os_stat : result stat_result;
  fromtimestamp : Q -> result datetime;
  strftime : datetime -> string;
  csv_rows : result (list (list string))
}.

Definition StopIteration : exn := Exn "StopIteration" "".

(** [next(reader)] to skip the header, then [sum(1 for row in reader)]. *)
Definition count_rows (rows : list (list string)) : result nat :=
  match rows with
  | [] => Raise StopIteration
  | _ :: data => mret (length data)
  end.

(** The tenths in [f"{n / d:.1f}"]: the quotient rounded to the nearest
    tenth, a tie to the even one.  The sizes are divided by powers of two, so
    the float holds the quotient exactly for every size below [2^53], and
    the format rounds the value the float holds correctly. *)
Definition tenths (n d : N) : N :=
  let q := (10 * n / d)%N in
  let r := (10 * n mod d)%N in
  if (2 * r <? d)%N then q
  else if (d <? 2 * r)%N then (q + 1)%N
  else if N.even q then q else (q + 1)%N.

Definition format_1f (n d : N) : string :=
  pretty (tenths n d / 10)%N +:+ "." +:+ pretty (tenths n d mod 10)%N.

(** The size label. *)
Definition size_str (file_size : N) : string :=
  if (file_size <? 1024)%N then pretty file_size +:+ " B"
  else if (file_size <? 1024 * 1024)%N then format_1f file_size 1024 +:+ " KB"
  else format_1f file_size (1024 * 1024) +:+ " MB".

(** [get_dataset_info] *)
Definition get_dataset_info (fs : Files) : result (gmap string value) :=
  try_except
    (if negb (path_exists fs) then
       mret {[ "filename" := VStr "feedback_corpus.csv";
               "recordCount" := VInt 0;
               "lastUpdated" := VStr "Not found";
               "fileSize" := VStr "0 KB";
               "status" := VStr "File not found" ]}
     else
       file_stats ← os_stat fs;
       let file_size := st_size file_stats in
       last_modified ← fromtimestamp fs (st_mtime file_stats);
       record_count ← try_except (rows ← csv_rows fs; count_rows rows)
                                 (fun _ => mret 0);
       mret {[ "filename" := VStr "feedback_corpus.csv";
               "recordCount" := VInt record_count;
               "lastUpdated" := VStr (strftime fs last_modified);
               "fileSize" := VStr (size_str file_size);
               "status" := VStr "Loaded" ]})
    (fun e =>
       mret {[ "filename" := VStr "feedback_corpus.csv";
               "recordCount" := VInt 0;
               "lastUpdated" := VStr "Error";
               "fileSize" := VStr "Unknown";
               "status" := VStr ("Error: " +:+ str e) ]}).

End Main.

(** ** Facts about the Python values *)
Module PyFacts.

Lemma truthy_spec (s : string) : truthy s = true <-> s <> "".
Proof. destruct s; simpl; split; congruence. Qed.

Lemma or_else_nonempty (a b : string) : b <> "" -> or_else a b <> "".
Proof.
  intros Hb. unfold or_else. destruct (truthy a) eqn:Ha; [|exact Hb].
  by apply truthy_spec.
Qed.

Lemma or_else_truthy (a b : string) : a <> "" -> or_else a b = a.
Proof. intros Ha. unfold or_else. by destruct a. Qed.

Lemma app_nonempty (p s : string) : p <> "" -> p +:+ s <> "".
Proof. destruct p; [congruence|discriminate]. Qed.

Lemma last_item_snoc {A} (xs : list A) (x : A) : last_item (xs ++ [x]) = Ok x.
Proof. unfold last_item. by rewrite last_snoc. Qed.

End PyFacts.
Import PyFacts.

(** ** The decision loop: proofs *)
Module AgentFacts.
Import Agent.

(** *** Facts about the graph *)

Lemma path_map_end : path_map !! "end" = Some END.
Proof. reflexivity. Qed.

Lemma path_map_continue : path_map !! "continue" = Some action.
Proof. reflexivity. Qed.

Lemma apply_update_messages (st : AgentState) (ms : list BaseMessage) :
  apply_update st ({[ "messages" := ms ]} : update) = {| messages := messages st ++ ms |}.
Proof. unfold apply_update. by rewrite lookup_singleton_eq. Qed.

(** After a response of the model was appended, the conditional edge leads to
    [END] when the response has no tool call and to [action] otherwise. *)
Lemma next_node_after_response (ms : list BaseMessage) (c : string) (tcs : list ToolCall) :
  next_node agent {| messages := ms ++ [AIMessage c tcs] |}
  = Ok (match tcs with [] => END | _ :: _ => action end).
Proof.
  unfold next_node, should_continue. simpl. rewrite last_item_snoc. simpl.
  destruct tcs; simpl; [by rewrite path_map_end | by rewrite path_map_continue].
Qed.

(** What a successful super-step looks like, node by node. *)
Lemma step_agent_inv (rt : Runtime) (st st' : AgentState) (u : update) (n' : node) :
  step rt agent st = Ok (u, st', n') ->
  exists c tcs,
    invoke_model rt (messages st) = Ok (AIMessage c tcs)
    /\ u = {[ "messages" := [AIMessage c tcs] ]}
    /\ st' = {| messages := messages st ++ [AIMessage c tcs] |}
    /\ n' = match tcs with [] => END | _ :: _ => action end.
Proof.
  unfold step, run_node, call_model. intros H.
  destruct (invoke_model rt (messages st)) as [m|e] eqn:Hm;
    cbn [mbind mret result_bind result_ret] in H; [|discriminate].
  rewrite apply_update_messages in H.
  destruct m as [c|c tcs|c i].
  - unfold next_node, should_continue in H. cbn [messages] in H.
    rewrite last_item_snoc in H. discriminate.
  - rewrite next_node_after_response in H. cbn [mbind mret result_bind result_ret] in H.
    injection H as <- <- <-. by exists c, tcs.
  - unfold next_node, should_continue in H. cbn [messages] in H.
    rewrite last_item_snoc in H. discriminate.
Qed.

Lemma step_action_inv (rt : Runtime) (st st' : AgentState) (u : update) (n' : node) :
  step rt action st = Ok (u, st', n') ->
  tool_node rt st = Ok u /\ st' = apply_update st u /\ n' = agent.
Proof.
  unfold step, run_node. intros H.
  destruct (tool_node rt st) as [u0|e]; simpl in H; [|discriminate].
  by injection H as <- <- <-.
Qed.

Lemma steps_END (rt : Runtime) (k : nat) (st : AgentState) :
  steps rt k END st = Ok (st, END).
Proof. by destruct k. Qed.

Lemma visit_agent_response (acc c : string) (tcs : list ToolCall) :
  visit acc ("agent", ({[ "messages" := [AIMessage c tcs] ]} : update))
  = match tcs with [] => c | _ :: _ => acc end.
Proof.
  unfold visit. rewrite decide_False by discriminate.
  rewrite decide_True by reflexivity. rewrite lookup_singleton_eq. simpl.
  by destruct tcs.
Qed.

Lemma visit_action (acc : string) (u : update) : visit acc ("action", u) = acc.
Proof.
  unfold visit. rewrite decide_False by discriminate.
  by rewrite decide_False by discriminate.
Qed.

Lemma visit_end_state (acc : string) (ms : list BaseMessage) (m : BaseMessage) :
  visit acc ("__end__", ({[ "messages" := (ms ++ [m])%list ]} : update)) = content m.
Proof.
  unfold visit. rewrite decide_True by reflexivity.
  rewrite lookup_singleton_eq. by rewrite last_snoc.
Qed.

Lemma consume_from_cons (acc : string) (ev : event) (evs : list event) :
  consume_from acc (ev :: evs) = consume_from (foldl visit acc ev) evs.
Proof. reflexivity. Qed.

(** A stream that completes does so on a response without tool calls, and
    consuming it leaves that response's text in [final_response]. *)
Lemma consume_completed (rt : Runtime) (fuel : nat) :
  forall (n : node) (st : AgentState) (evs : list event) (acc : string),
    n <> END ->
    astream_from rt fuel n st = (evs, None) ->
    exists ms c,
      steps rt fuel n st = Ok ({| messages := ms ++ [AIMessage c []] |}, END)
      /\ consume_from acc evs = c.
Proof.
  induction fuel as [|fuel IH]; intros n st evs acc Hn H.
  - destruct n; simpl in H; congruence.
  - assert (Hs : exists u st' n', step rt n st = Ok (u, st', n')
                 /\ exists evs', astream_from rt fuel n' st' = (evs', None)
                 /\ evs = [(node_name n, u)] :: evs').
    { destruct n; [| |congruence]; simpl in H;
        (destruct (step rt _ st) as [[[u st'] n']|e] eqn:Hstep; [|congruence]);
        (destruct (astream_from rt fuel n' st') as [evs' exc] eqn:Hrest);
        injection H as <- ->; eauto 10. }
    destruct Hs as (u & st' & n' & Hstep & evs' & Hrest & ->).
    assert (Hsteps : steps rt (S fuel) n st = steps rt fuel n' st').
    { destruct n; [| |congruence]; simpl; by rewrite Hstep. }
    rewrite Hsteps, consume_from_cons. cbn [foldl].
    destruct n; [| |congruence].
    + apply step_agent_inv in Hstep as (c & tcs & _ & -> & -> & ->).
      simpl node_name. rewrite visit_agent_response.
      destruct tcs as [|tc tcs].
      * rewrite steps_END. exists (messages st), c. split; [done|].
        destruct fuel; simpl in Hrest;
          (destruct (emits_end rt); injection Hrest as <-;
           [by rewrite consume_from_cons; cbn [foldl]; rewrite visit_end_state | done]).
      * by apply IH.
    + apply step_action_inv in Hstep as (_ & -> & ->).
      simpl node_name. rewrite visit_action. by apply IH.
Qed.

Lemma step_agent_ok (rt : Runtime) (st : AgentState) (c : string) (tcs : list ToolCall) :
  invoke_model rt (messages st) = Ok (AIMessage c tcs) ->
  step rt agent st
  = Ok ({[ "messages" := [AIMessage c tcs] ]},
        {| messages := messages st ++ [AIMessage c tcs] |},
        match tcs with [] => END | _ :: _ => action end).
Proof.
  intros H. unfold step, run_node, call_model. rewrite H.
  cbn [mbind mret result_bind result_ret].
  rewrite apply_update_messages, next_node_after_response. reflexivity.
Qed.

Lemma step_action_ok (rt : Runtime) (st : AgentState) (u : update) :
  tool_node rt st = Ok u -> step rt action st = Ok (u, apply_update st u, agent).
Proof. intros H. unfold step, run_node. by rewrite H. Qed.

(** While the model keeps asking for tools and the tools answer, no number of
    super-steps reaches [END]. *)
Lemma steps_never_end (rt : Runtime) :
  (forall ms, exists c tc tcs, invoke_model rt ms = Ok (AIMessage c (tc :: tcs))) ->
  (forall st, exists u, tool_node rt st = Ok u) ->
  forall (k : nat) (n : node) (st : AgentState),
    n <> END -> exists st' n', steps rt k n st = Ok (st', n') /\ n' <> END.
Proof.
  intros Hmodel Htool. induction k as [|k IH]; intros n st Hn.
  - by exists st, n.
  - destruct n; [| |congruence]; cbn [steps].
    + destruct (Hmodel (messages st)) as (c & tc & tcs & Hm).
      rewrite (step_agent_ok _ _ _ _ Hm). cbn [mbind result_bind]. by apply IH.
    + destruct (Htool st) as (u & Hu).
      rewrite (step_action_ok _ _ _ Hu). cbn [mbind result_bind]. by apply IH.
Qed.

Lemma astream_never_end (rt : Runtime) :
  (forall ms, exists c tc tcs, invoke_model rt ms = Ok (AIMessage c (tc :: tcs))) ->
  (forall st, exists u, tool_node rt st = Ok u) ->
  forall (fuel : nat) (n : node) (st : AgentState),
    n <> END -> (astream_from rt fuel n st).2 = Some (GraphRecursionError rt).
Proof.
  intros Hmodel Htool. induction fuel as [|fuel IH]; intros n st Hn.
  - by destruct n.
  - destruct n; [| |congruence]; cbn [astream_from].
    + destruct (Hmodel (messages st)) as (c & tc & tcs & Hm).
      rewrite (step_agent_ok _ _ _ _ Hm).
      specialize (IH action {| messages := messages st ++ [AIMessage c (tc :: tcs)] |}).
      destruct (astream_from rt fuel action _) as [evs exc]. by apply IH.
    + destruct (Htool st) as (u & Hu).
      rewrite (step_action_ok _ _ _ Hu).
      specialize (IH agent (apply_update st u)).
      destruct (astream_from rt fuel agent _) as [evs exc]. by apply IH.
Qed.

(** Items that do not assign leave [final_response] as it is. *)
Lemma visit_no_answer (acc : string) (item : string * update) :
  sets_answer item = false -> visit acc item = acc.
Proof.
  destruct item as [nd values]. unfold sets_answer, visit.
  destruct (values !! "messages") as [ms|]; simpl; [|by repeat case_decide].
  destruct (last ms) as [m|]; simpl; [|by repeat case_decide].
  intros H. apply orb_false_iff in H as [H1 H2].
  apply bool_decide_eq_false in H1. rewrite decide_False by done.
  case_decide as Hag; [|done].
  rewrite bool_decide_eq_true_2 in H2 by done. simpl in H2.
  by destruct (tool_calls_attr m) as [[|]|].
Qed.

Lemma consume_no_answer (evs : list event) (acc : string) :
  forallb (forallb (fun item => negb (sets_answer item))) evs = true ->
  consume_from acc evs = acc.
Proof.
  revert acc. induction evs as [|ev evs IH]; intros acc H; [done|].
  simpl in H. apply andb_true_iff in H as [Hev H].
  rewrite consume_from_cons, IH by done. clear IH H. revert acc.
  induction ev as [|item ev IH]; intros acc; [done|].
  simpl in Hev. apply andb_true_iff in Hev as [Hi Hev]. simpl.
  rewrite visit_no_answer by by apply negb_true_iff. by apply IH.
Qed.

Lemma astream_from_END (rt : Runtime) (fuel : nat) (st : AgentState) :
  astream_from rt fuel END st
  = (if emits_end rt
     then [[("__end__", ({[ "messages" := messages st ]} : update))]]
     else [], None).
Proof. by destruct fuel. Qed.

Lemma analyze_compiled (rt : Runtime) (query : string) :
  analyze (Ok (compile rt)) query
  = match astream rt (inputs_of query) with
    | (_, Some e) => Ok (error_prefix +:+ str e)
    | (events, None) => Ok (or_else (consume events) fallback)
    end.
Proof.
  unfold analyze. cbn [mbind result_bind compile astream_of].
  by destruct (astream rt (inputs_of query)) as [evs [e|]].
Qed.

Lemma fallback_nonempty : fallback <> "".
Proof. discriminate. Qed.

(** *** The claims about the decision loop *)

(** C1, as the code has it.  The conditional edge after a response of the
    model leads to [END] exactly when the response carries no tool call.
    Whenever the stream completes, it completed on such a response, and
    [analyze] returns that response's text, or the fixed fallback message
    when the text is empty.  In particular a model whose first response has
    no tool call ends the loop after one super-step with that outcome. *)
Theorem analyze_returns_final_text (rt : Runtime) (query : string) :
  (forall ms c tcs,
      next_node agent {| messages := ms ++ [AIMessage c tcs] |} = Ok END <-> tcs = [])
  /\ (forall evs,
         astream rt (inputs_of query) = (evs, None) ->
         exists ms c,
           steps rt (recursion_limit rt) agent (inputs_of query)
           = Ok ({| messages := ms ++ [AIMessage c []] |}, END)
           /\ analyze (Ok (compile rt)) query = Ok (or_else c fallback))
  /\ (forall text,
         0 < recursion_limit rt ->
         invoke_model rt [HumanMessage query] = Ok (AIMessage text []) ->
         steps rt 1 agent (inputs_of query)
         = Ok ({| messages := [HumanMessage query; AIMessage text []] |}, END)
         /\ analyze (Ok (compile rt)) query = Ok (or_else text fallback)
         /\ (text <> "" -> analyze (Ok (compile rt)) query = Ok text)).
Proof.
  split; [|split].
  - intros ms c tcs. rewrite next_node_after_response.
    destruct tcs; split; congruence.
  - intros evs Hevs. rewrite analyze_compiled, Hevs.
    destruct (consume_completed rt _ agent _ evs "" ltac:(discriminate) Hevs)
      as (ms & c & Hsteps & Hc).
    exists ms, c. split; [done|]. unfold consume. by rewrite Hc.
  - intros text Hlimit Hmodel.
    assert (Hstep := step_agent_ok rt (inputs_of query) text [] Hmodel).
    assert (Hrun : analyze (Ok (compile rt)) query = Ok (or_else text fallback)).
    { rewrite analyze_compiled. unfold astream.
      destruct (recursion_limit rt) as [|fuel]; [lia|].
      cbn [astream_from]. rewrite Hstep, astream_from_END.
      unfold consume. destruct (emits_end rt).
      - rewrite !consume_from_cons. cbn [foldl node_name].
        rewrite visit_agent_response.
        pose proof (visit_end_state text [HumanMessage query] (AIMessage text [])) as E.
        cbn [app] in E. cbn [messages inputs_of app]. by rewrite E.
      - rewrite consume_from_cons. cbn [foldl node_name].
        by rewrite visit_agent_response. }
    split; [|split].
    + cbn [steps]. by rewrite Hstep.
    + exact Hrun.
    + intros Htext. by rewrite Hrun, or_else_truthy.
Qed.

Lemma analyze_returns_final_text_witness :
  steps (answering "Users ask for dark mode.") 1 agent (inputs_of "What about dark mode?")
  = Ok ({| messages := [HumanMessage "What about dark mode?";
                        AIMessage "Users ask for dark mode." []] |}, END)
  /\ analyze (Ok (compile (answering "Users ask for dark mode."))) "What about dark mode?"
     = Ok "Users ask for dark mode.".
Proof.
  destruct (analyze_returns_final_text (answering "Users ask for dark mode.")
              "What about dark mode?") as (_ & _ & H).
  destruct (H "Users ask for dark mode."
              ltac:(vm_compute; lia) ltac:(reflexivity)) as (H1 & _ & H3).
  split; [exact H1|]. apply H3. discriminate.
Defined.

(** C1 as written fails for a final response whose text is empty: [analyze]
    then answers with the fallback message, not with the model's text. *)
Lemma analyze_empty_text_counterexample :
  invoke_model (answering "") [HumanMessage "hello"] = Ok (AIMessage "" [])
  /\ analyze (Ok (compile (answering ""))) "hello" = Ok fallback
  /\ fallback <> "".
Proof. split; [reflexivity|]. split; [vm_compute; reflexivity|discriminate]. Qed.

(** C2, as the code has it.  The graph has no iteration cap of its own: for a
    model that asks for a tool on every turn, with tools that answer, no
    number of super-steps reaches [END]; the run is only stopped by the graph
    runtime's recursion limit, and [analyze] then returns its generic error
    message built from the runtime's exception. *)
Theorem loop_has_no_iteration_cap (rt : Runtime) (query : string) :
  (forall ms, exists c tc tcs, invoke_model rt ms = Ok (AIMessage c (tc :: tcs))) ->
  (forall st, exists u, tool_node rt st = Ok u) ->
  (forall k, exists st' n',
      steps rt k agent (inputs_of query) = Ok (st', n') /\ n' <> END)
  /\ analyze (Ok (compile rt)) query = Ok (error_prefix +:+ recursion_msg rt).
Proof.
  intros Hmodel Htool. split.
  - intros k. by apply steps_never_end.
  - rewrite analyze_compiled.
    pose proof (astream_never_end rt Hmodel Htool (recursion_limit rt) agent
                  (inputs_of query) ltac:(discriminate)) as H.
    unfold astream. destruct (astream_from _ _ _ _) as [evs exc].
    simpl in H. by subst exc.
Qed.

Lemma loop_has_no_iteration_cap_witness :
  (forall k, exists st' n',
      steps always_tool k agent (inputs_of "dark mode?") = Ok (st', n') /\ n' <> END)
  /\ analyze (Ok (compile always_tool)) "dark mode?" = Ok (error_prefix +:+ limit_msg).
Proof.
  apply (loop_has_no_iteration_cap always_tool "dark mode?").
  - intros ms. exists "", search_call, []. reflexivity.
  - intros st. eexists. reflexivity.
Defined.

(** C2 as written fails: after ten full iterations (twenty super-steps) of a
    model that always asks for a tool the loop is about to call the model an
    eleventh time, and the answer of [analyze] is the runtime's error text at
    the runtime's own limit, not a fallback at a configured cap. *)
Lemma runaway_model_counterexample :
  (exists st, steps always_tool 20 agent (inputs_of "dark mode?") = Ok (st, agent)
              /\ length (messages st) = 21)
  /\ analyze (Ok (compile always_tool)) "dark mode?" = Ok (error_prefix +:+ limit_msg).
Proof.
  split.
  - eexists. split; [vm_compute; reflexivity|reflexivity].
  - vm_compute. reflexivity.
Qed.

(** C3.  Whatever the executor and the query, [analyze] returns a string and
    the string is not empty: a failure to build the executor and an
    exception raised while streaming both become the prefixed error text,
    and a stream that completes without an item that sets the answer yields
    the fixed fallback message.  The endpoint built on it returns too. *)
Theorem analyze_never_raises_nor_empty (gae : result Executor) (query : string) :
  (exists s, analyze gae query = Ok s /\ s <> ""
             /\ analyze_feedback gae query = Ok {| response := s |})
  /\ (forall e, gae = Raise e -> analyze gae query = Ok (error_prefix +:+ str e))
  /\ (forall ex evs e,
         gae = Ok ex -> astream_of ex (inputs_of query) = (evs, Some e) ->
         analyze gae query = Ok (error_prefix +:+ str e))
  /\ (forall ex evs,
         gae = Ok ex -> astream_of ex (inputs_of query) = (evs, None) ->
         forallb (forallb (fun item => negb (sets_answer item))) evs = true ->
         analyze gae query = Ok fallback).
Proof.
  assert (Hshape :
    (exists e, analyze gae query = Ok (error_prefix +:+ str e))
    \/ (exists a, analyze gae query = Ok (or_else a fallback))).
  { unfold analyze. destruct gae as [ex|e]; cbn [mbind result_bind try_except].
    - destruct (astream_of ex (inputs_of query)) as [evs [e|]]; eauto. 
    - eauto. }
  split; [|split; [|split]].
  - destruct Hshape as [[e He]|[a Ha]].
    + exists (error_prefix +:+ str e). unfold analyze_feedback. rewrite He.
      split; [done|]. split; [|done]. by apply app_nonempty.
    + exists (or_else a fallback). unfold analyze_feedback. rewrite Ha.
      split; [done|]. split; [|done]. apply or_else_nonempty, fallback_nonempty.
  - by intros e ->.
  - intros ex evs e -> Hs. unfold analyze. cbn [mbind result_bind]. by rewrite Hs.
  - intros ex evs -> Hs Hno. unfold analyze. cbn [mbind result_bind]. rewrite Hs.
    unfold consume. by rewrite consume_no_answer.
Qed.

Lemma analyze_never_raises_nor_empty_witness :
  analyze (Ok cut_short) "dark mode?" = Ok fallback.
Proof.
  destruct (analyze_never_raises_nor_empty (Ok cut_short) "dark mode?") as (_ & _ & _ & H).
  apply (H cut_short _ eq_refl eq_refl). vm_compute. reflexivity.
Defined.

(** *** More about the loop *)

Lemma steps_S (rt : Runtime) (k : nat) (n : node) (st : AgentState) :
  n <> END ->
  steps rt (S k) n st = ('(_, st', n') ← step rt n st; steps rt k n' st').
Proof. by destruct n. Qed.

(** Once [END] is reached, more super-steps change nothing. *)
Lemma steps_mono (rt : Runtime) (k : nat) :
  forall (n : node) (st st' : AgentState) (k' : nat),
    steps rt k n st = Ok (st', END) -> k <= k' -> steps rt k' n st = Ok (st', END).
Proof.
  induction k as [|k IH]; intros n st st' k' H Hle.
  - injection H as -> ->. apply steps_END.
  - destruct k' as [|k']; [lia|].
    destruct (decide (n = END)) as [->|Hn]; [by rewrite steps_END in *|].
    rewrite steps_S in * by done.
    destruct (step rt n st) as [[[u st1] n1]|e]; [|done].
    cbn [mbind result_bind] in *. apply IH; [done|lia].
Qed.

(** A run that reaches [END] within the fuel streams to completion. *)
Lemma astream_completes (rt : Runtime) (fuel : nat) :
  forall (n : node) (st st' : AgentState),
    n <> END -> steps rt fuel n st = Ok (st', END) ->
    (astream_from rt fuel n st).2 = None.
Proof.
  induction fuel as [|fuel IH]; intros n st st' Hn H.
  - injection H as _ ->. done.
  - rewrite steps_S in H by done.
    assert (Hs : astream_from rt (S fuel) n st
                 = match step rt n st with
                   | Raise e => ([], Some e)
                   | Ok (u, st1, n1) =>
                       let '(evs, exc) := astream_from rt fuel n1 st1 in
                       ([(node_name n, u)] :: evs, exc)
                   end) by by destruct n.
    rewrite Hs. destruct (step rt n st) as [[[u st1] n1]|e]; [|done].
    cbn [mbind result_bind] in H.
    destruct (decide (n1 = END)) as [->|Hn1].
    + by rewrite astream_from_END.
    + specialize (IH n1 st1 st' Hn1 H).
      by destruct (astream_from rt fuel n1 st1) as [evs exc].
Qed.

(** If the loop reaches [END] within the runtime's limit, [analyze] answers
    with the text of the last response (or the fallback when it is empty). *)
Lemma analyze_of_steps (rt : Runtime) (query : string) (ms : list BaseMessage)
  (c : string) (k : nat) :
  k <= recursion_limit rt ->
  steps rt k agent (inputs_of query) = Ok ({| messages := ms ++ [AIMessage c []] |}, END) ->
  analyze (Ok (compile rt)) query = Ok (or_else c fallback).
Proof.
  intros Hk Hsteps. apply (steps_mono _ _ _ _ _ (recursion_limit rt)) in Hsteps; [|done].
  pose proof (astream_completes rt _ agent _ _ ltac:(discriminate) Hsteps) as Hexc.
  rewrite analyze_compiled. unfold astream in *.
  destruct (astream_from rt (recursion_limit rt) agent (inputs_of query))
    as [evs exc] eqn:Hs.
  simpl in Hexc. subst exc.
  destruct (consume_completed rt _ agent _ evs "" ltac:(discriminate) Hs)
    as (ms' & c' & Hsteps' & Hc).
  rewrite Hsteps in Hsteps'. injection Hsteps' as Heq.
  apply app_inj_tail in Heq as [_ [= ->]]. unfold consume. by rewrite Hc.
Qed.

(** X1.  One tool round.  When the model first asks for tools, the tool
    node answers, and the model then replies without tool calls, the loop
    ends after three super-steps on the transcript question, request, tool
    results, reply, and [analyze] returns the reply (the fallback if it is
    empty); the text that came with the request is not the answer. *)
Theorem tool_round_transcript (rt : Runtime) (query c1 c2 : string) (tc : ToolCall)
  (tcs : list ToolCall) (u : update) :
  3 <= recursion_limit rt ->
  invoke_model rt [HumanMessage query] = Ok (AIMessage c1 (tc :: tcs)) ->
  tool_node rt {| messages := [HumanMessage query; AIMessage c1 (tc :: tcs)] |} = Ok u ->
  let st2 := apply_update {| messages := [HumanMessage query; AIMessage c1 (tc :: tcs)] |} u in
  invoke_model rt (messages st2) = Ok (AIMessage c2 []) ->
  steps rt 3 agent (inputs_of query)
  = Ok ({| messages := messages st2 ++ [AIMessage c2 []] |}, END)
  /\ analyze (Ok (compile rt)) query = Ok (or_else c2 fallback)
  /\ (forall results, u = {[ "messages" := results ]} ->
        messages st2 ++ [AIMessage c2 []]
        = [HumanMessage query; AIMessage c1 (tc :: tcs)] ++ results ++ [AIMessage c2 []]).
Proof.
  intros Hlimit H1 Htool st2 H2.
  assert (Hsteps : steps rt 3 agent (inputs_of query)
                   = Ok ({| messages := messages st2 ++ [AIMessage c2 []] |}, END)).
  { rewrite steps_S by done.
    rewrite (step_agent_ok rt (inputs_of query) c1 (tc :: tcs) H1).
    cbn [mbind result_bind messages inputs_of app]. rewrite steps_S by done.
    rewrite (step_action_ok rt _ u Htool). cbn [mbind result_bind].
    rewrite steps_S by done. fold st2.
    rewrite (step_agent_ok rt st2 c2 [] H2). cbn [mbind result_bind].
    apply steps_END. }
  split; [done|]. split.
  - by apply (analyze_of_steps rt query (messages st2) c2 3).
  - intros results ->. unfold st2. rewrite apply_update_messages. cbn [messages].
    by rewrite <- app_assoc.
Qed.

Lemma tool_round_transcript_witness :
  steps one_round 3 agent (inputs_of "dark mode?")
  = Ok ({| messages := [HumanMessage "dark mode?"; AIMessage "" [search_call];
                        ToolMessage "3 requests for dark mode" "call_1";
                        AIMessage "Users ask for dark mode." []] |}, END)
  /\ analyze (Ok (compile one_round)) "dark mode?" = Ok "Users ask for dark mode.".
Proof.
  destruct (tool_round_transcript one_round "dark mode?" "" "Users ask for dark mode."
              search_call []
              {[ "messages" := [ToolMessage "3 requests for dark mode" "call_1"] ]}
              ltac:(vm_compute; lia) eq_refl eq_refl eq_refl) as (H1 & H2 & _).
  split; [exact H1|exact H2].
Defined.

Lemma apply_update_prefix (st : AgentState) (u : update) :
  messages st `prefix_of` messages (apply_update st u).
Proof.
  unfold apply_update. destruct (u !! "messages"); [|done]. by apply prefix_app_r.
Qed.

Lemma step_prefix (rt : Runtime) (n : node) (st st' : AgentState) (u : update)
  (n' : node) :
  step rt n st = Ok (u, st', n') -> messages st `prefix_of` messages st'.
Proof.
  unfold step. destruct (run_node rt n st) as [u0|e]; [|done].
  cbn [mbind result_bind]. destruct (next_node n (apply_update st u0)); [|done].
  intros [= <- <- <-]. apply apply_update_prefix.
Qed.

(** X2.  The transcript is append-only: whatever the model and the tools do,
    after any number of super-steps the earlier turns are still there, in
    place, and the first turn is still the user's question. *)
Theorem transcript_append_only (rt : Runtime) (k : nat) (n n' : node)
  (st st' : AgentState) (query : string) :
  steps rt k n st = Ok (st', n') ->
  messages st `prefix_of` messages st'
  /\ (head (messages st) = Some (HumanMessage query) ->
      head (messages st') = Some (HumanMessage query)).
Proof.
  intros H.
  assert (Hp : messages st `prefix_of` messages st').
  { revert n st H. induction k as [|k IH]; intros n st H.
    - by injection H as -> _.
    - destruct (decide (n = END)) as [->|Hn].
      + rewrite steps_END in H. by injection H as -> _.
      + rewrite steps_S in H by done.
        destruct (step rt n st) as [[[u st1] n1]|e] eqn:Hstep; [|done].
        cbn [mbind result_bind] in H. etrans; [by eapply step_prefix|by eapply IH]. }
  split; [done|]. destruct Hp as [rest ->]. by destruct (messages st).
Qed.

Lemma transcript_append_only_witness :
  exists st', steps one_round 2 agent (inputs_of "dark mode?") = Ok (st', agent)
              /\ messages (inputs_of "dark mode?") `prefix_of` messages st'
              /\ head (messages st') = Some (HumanMessage "dark mode?").
Proof.
  eexists. split; [vm_compute; reflexivity|].
  destruct (transcript_append_only one_round 2 agent agent (inputs_of "dark mode?") _
              "dark mode?" ltac:(vm_compute; reflexivity)) as [Hp Hh].
  split; [exact Hp|by apply Hh].
Defined.

Lemma steps_set_emits_end (b : bool) (rt : Runtime) (k : nat) :
  forall n st, steps (set_emits_end b rt) k n st = steps rt k n st.
Proof.
  induction k as [|k IH]; intros n st; [done|].
  destruct (decide (n = END)) as [->|Hn]; [by rewrite !steps_END|].
  rewrite !steps_S by done.
  assert (Hstep : step (set_emits_end b rt) n st = step rt n st) by by destruct n.
  rewrite Hstep. destruct (step rt n st) as [[[u st1] n1]|e]; [|done].
  cbn [mbind result_bind]. apply IH.
Qed.

Lemma astream_exc_set_emits_end (b : bool) (rt : Runtime) (fuel : nat) :
  forall n st, (astream_from (set_emits_end b rt) fuel n st).2
               = (astream_from rt fuel n st).2.
Proof.
  induction fuel as [|fuel IH]; intros n st.
  - by destruct n.
  - destruct n; cbn [astream_from]; [| |done].
    + change (step (set_emits_end b rt) agent st) with (step rt agent st).
      destruct (step rt agent st) as [[[u st1] n1]|e]; [|done].
      specialize (IH n1 st1).
      destruct (astream_from (set_emits_end b rt) fuel n1 st1),
               (astream_from rt fuel n1 st1). done.
    + change (step (set_emits_end b rt) action st) with (step rt action st).
      destruct (step rt action st) as [[[u st1] n1]|e]; [|done].
      specialize (IH n1 st1).
      destruct (astream_from (set_emits_end b rt) fuel n1 st1),
               (astream_from rt fuel n1 st1). done.
Qed.

(** X3.  The two places where [analyze] picks up the answer agree: a
    runtime that closes its stream with an ["__end__"] event holding the
    whole state and one that does not lead to the same result. *)
Theorem analyze_ignores_end_event (rt : Runtime) (b : bool) (query : string) :
  analyze (Ok (compile (set_emits_end b rt))) query = analyze (Ok (compile rt)) query.
Proof.
  rewrite !analyze_compiled. unfold astream. cbn [recursion_limit set_emits_end].
  pose proof (astream_exc_set_emits_end b rt (recursion_limit rt) agent (inputs_of query))
    as Hexc.
  destruct (astream_from (set_emits_end b rt) (recursion_limit rt) agent (inputs_of query))
    as [evs1 exc1] eqn:H1.
  destruct (astream_from rt (recursion_limit rt) agent (inputs_of query))
    as [evs2 exc2] eqn:H2.
  simpl in Hexc. subst exc2. destruct exc1 as [e|]; [done|].
  destruct (consume_completed _ _ agent _ evs1 "" ltac:(discriminate) H1)
    as (ms1 & c1 & Hs1 & Hc1).
  destruct (consume_completed _ _ agent _ evs2 "" ltac:(discriminate) H2)
    as (ms2 & c2 & Hs2 & Hc2).
  rewrite steps_set_emits_end, Hs2 in Hs1. injection Hs1 as Heq.
  apply app_inj_tail in Heq as [_ [= ->]]. unfold consume. by rewrite Hc1, Hc2.
Qed.

End AgentFacts.

(** ** The vector store: proofs *)
Module VectorStoreFacts.
Import VectorStore.

(** *** Trimming *)

Lemma lstrip_empty (s : string) : lstrip s = "" <-> all_space s = true.
Proof.
  induction s as [|a s IH]; simpl; [done|].
  destruct (is_space a); simpl; [done|]. split; discriminate.
Qed.

Lemma rstrip_empty (s : string) : rstrip s = "" <-> all_space s = true.
Proof.
  induction s as [|a s IH]; simpl; [done|].
  destruct (rstrip s) eqn:Hr.
  - destruct (is_space a); simpl; [|split; discriminate].
    split; [intros _; by apply IH|done].
  - split; [discriminate|]. intros H. apply andb_true_iff in H as [_ H].
    apply IH in H. discriminate.
Qed.

Lemma all_space_lstrip (s : string) : all_space (lstrip s) = all_space s.
Proof.
  induction s as [|a s IH]; simpl; [done|].
  destruct (is_space a) eqn:Ha; simpl; [done|]. by rewrite Ha.
Qed.

(** A text is blank (empty once trimmed) when all its characters are spaces. *)
Lemma strip_empty (s : string) : strip s = "" <-> all_space s = true.
Proof. unfold strip. by rewrite rstrip_empty, all_space_lstrip. Qed.

Lemma has_content_spec (d : Document) :
  has_content d = true <-> strip (page_content d) <> "".
Proof.
  unfold has_content. rewrite andb_true_iff, !truthy_spec. split; [tauto|].
  intros H. split; [|done]. intros E. by rewrite E in H.
Qed.

(** *** Building the index *)

Lemma EmptyCorpusError_own (m : string) :
  m ∈ [no_documents; no_valid_documents; no_chunks] ->
  EmptyCorpusError (ValueError m) = true.
Proof.
  intros H. unfold EmptyCorpusError, ValueError. cbn [exn_class exn_msg].
  apply andb_true_intro. split; by apply bool_decide_eq_true_2.
Qed.

(** With no chunk left, the build raises one of its own three errors right
    after loading: nothing is embedded and no index object is made. *)
Lemma setup_without_chunks (env : Env) (self : FeedbackVectorStore) (w : World)
  (docs : list Document) :
  load env (csv_path self) = Ok docs ->
  chunks_of env self docs = [] ->
  exists m, m ∈ [no_documents; no_valid_documents; no_chunks]
            /\ _setup_vector_store env self w
               = (Raise (ValueError m), record_call (LoadCSV (csv_path self)) w).
Proof.
  intros Hload Hchunks. unfold _setup_vector_store, chunks_of in *. rewrite Hload.
  destruct docs as [|d docs]; [exists no_documents; split; [set_solver|done]|].
  destruct (List.filter has_content (map use_feedback_text (d :: docs))) as [|d' ds];
    [exists no_valid_documents; split; [set_solver|done]|].
  rewrite Hchunks. exists no_chunks. split; [set_solver|done].
Qed.

(** With chunks, the outcome is the providers': their error, or an index
    over exactly these chunks. *)
Lemma setup_with_chunks (env : Env) (self : FeedbackVectorStore) (w : World)
  (docs : list Document) :
  load env (csv_path self) = Ok docs ->
  chunks_of env self docs <> [] ->
  let chunks := chunks_of env self docs in
  let w1 := record_call (LoadCSV (csv_path self)) w in
  let w2 := record_call (InitEmbeddings "text-embedding-3-small") w1 in
  let w3 := record_call (FromDocuments chunks) w2 in
  _setup_vector_store env self w
  = match embeddings_init env "text-embedding-3-small" with
    | Raise e => (Raise e, w2)
    | Ok _ =>
        match index_documents env chunks with
        | Raise e => (Raise e, w3)
        | Ok _ => (Ok {| qid := next_id w3; collection_name := "client_feedback";
                         points := chunks |}, allocate w3)
        end
    end.
Proof.
  intros Hload Hchunks. unfold _setup_vector_store, chunks_of in *. rewrite Hload.
  destruct docs as [|d docs]; [done|].
  destruct (List.filter has_content (map use_feedback_text (d :: docs))) as [|d' ds];
    [done|].
  destruct (split_documents env _ _ (d' :: ds)) as [|c cs]; [done|]. reflexivity.
Qed.

(** *** Memoization *)

Lemma builds_record_load (path : string) (w : World) :
  builds (record_call (LoadCSV path) w) = S (builds w).
Proof.
  unfold builds, record_call. simpl. rewrite List.filter_app, length_app. simpl. lia.
Qed.

Lemma builds_record_other (c : call) (w : World) :
  is_load c = false -> builds (record_call c w) = builds w.
Proof.
  intros H. unfold builds, record_call. simpl.
  rewrite List.filter_app, length_app. simpl. rewrite H. simpl. lia.
Qed.

(** Every run of the build, whatever its outcome, loads the corpus once. *)
Lemma setup_builds (env : Env) (self : FeedbackVectorStore) (w : World) :
  builds (_setup_vector_store env self w).2 = S (builds w).
Proof.
  unfold _setup_vector_store. cbv zeta.
  destruct (load env (csv_path self)) as [docs|e]; [|apply builds_record_load].
  destruct docs as [|d docs]; [apply builds_record_load|].
  destruct (List.filter has_content (map use_feedback_text (d :: docs))) as [|d' ds];
    [apply builds_record_load|].
  destruct (split_documents env _ _ (d' :: ds)) as [|c cs]; [apply builds_record_load|].
  destruct (embeddings_init env _); cbn [snd];
    [|rewrite builds_record_other by done; apply builds_record_load].
  assert (Hb : forall w0 : World, builds (allocate w0) = builds w0) by done.
  destruct (index_documents env _); cbn [snd]; rewrite ?Hb;
    rewrite !builds_record_other by done; apply builds_record_load.
Qed.

Lemma get_vector_store_memo (env : Env) (self : FeedbackVectorStore) (w : World)
  (v : Qdrant) :
  _vector_store self = Some v -> get_vector_store env self w = (Ok v, self, w).
Proof. intros H. unfold get_vector_store. by rewrite H. Qed.

Lemma get_retriever_memo (env : Env) (self : FeedbackVectorStore) (w : World)
  (r : VectorStoreRetriever) :
  _retriever self = Some r -> get_retriever env self w = (Ok r, self, w).
Proof. intros H. unfold get_retriever. by rewrite H. Qed.

(** Once settled, an access answers from the memo: same store, no call. *)
Lemma perform_settled (env : Env) (a : access) (self : FeedbackVectorStore)
  (w : World) (v : Qdrant) :
  settled v self ->
  exists o self' w',
    perform env a self w = (Ok (v, o), self', w')
    /\ settled v self' /\ calls w' = calls w
    /\ (forall r, _retriever self = Some r -> _retriever self' = Some r)
    /\ (forall r, o = Some r -> _retriever self' = Some r).
Proof.
  intros [Hv Hr]. destruct a; unfold perform.
  - destruct (_retriever self) as [r|] eqn:Hret.
    + rewrite (get_retriever_memo _ _ _ r Hret). cbn [mbind result_bind mret result_ret].
      rewrite (Hr r eq_refl). exists (Some r), self, w.
      split; [done|]. split; [|split; [done|split]].
      * split; [done|]. intros r0 E. rewrite Hret in E. by apply Hr.
      * by intros r0 [= <-].
      * by intros r0 [= <-].
    + unfold get_retriever. rewrite Hret, (get_vector_store_memo _ _ _ v Hv).
      cbn [mbind result_bind mret result_ret vectorstore].
      eexists _, _, _. split; [reflexivity|]. split; [|split; [done|split]].
      * split; [done|]. by intros r0 [= <-].
      * intros r0 E. discriminate E.
      * by intros r0 [= <-].
  - rewrite (get_vector_store_memo _ _ _ v Hv). cbn [mbind result_bind mret result_ret].
    exists None, self, w. split; [done|]. split; [done|]. by repeat split.
Qed.

Lemma perform_all_settled (env : Env) (accs : list access) :
  forall (self : FeedbackVectorStore) (w : World) (v : Qdrant),
    settled v self ->
    exists rs self' w',
      perform_all env accs self w = (rs, self', w')
      /\ settled v self' /\ calls w' = calls w
      /\ (forall r, _retriever self = Some r -> _retriever self' = Some r)
      /\ Forall (fun x => exists o, x = Ok (v, o)
                          /\ forall r, o = Some r -> _retriever self' = Some r) rs.
Proof.
  induction accs as [|a accs IH]; intros self w v Hs.
  - exists [], self, w. do 4 (split; [done|]). constructor.
  - cbn [perform_all]. destruct (perform_settled env a self w v Hs)
      as (o & self1 & w1 & -> & Hs1 & Hc1 & Hk1 & Ho1).
    destruct (IH self1 w1 v Hs1) as (rs & self2 & w2 & -> & Hs2 & Hc2 & Hk2 & Hrs).
    exists (Ok (v, o) :: rs), self2, w2.
    split; [done|]. split; [done|]. split; [congruence|]. split.
    + intros r Hr. by apply Hk2, Hk1.
    + constructor; [|done]. exists o. split; [done|]. intros r Hr. by apply Hk2, Ho1.
Qed.

(** The first access to a fresh store runs the build; if it succeeds the
    store is settled, if it raises nothing is memoized. *)
Lemma perform_fresh (env : Env) (a : access) (path : string) (size overlap : nat)
  (w : World) :
  let self := init path size overlap in
  match perform env a self w with
  | (Ok (v, o), self', w') =>
      settled v self' /\ builds w' = S (builds w)
      /\ forall r, o = Some r -> _retriever self' = Some r
  | (Raise e, self', w') => self' = self /\ builds w' = S (builds w)
  end.
Proof.
  intros self. pose proof (setup_builds env self w) as Hb.
  destruct a; unfold perform, get_retriever, get_vector_store; simpl;
    destruct (_setup_vector_store env self w) as [[v|e] w']; simpl in *.
  - repeat split; try done. by intros r [= <-].
  - done.
  - repeat split; done.
  - done.
Qed.

Lemma blank_rows_filtered (docs : list Document) :
  Forall (fun d => strip (default "" (metadata d !! "feedback_text")) = "") docs ->
  List.filter has_content (map use_feedback_text docs) = [].
Proof.
  induction 1 as [|d docs Hd _ IH]; [done|]. simpl.
  destruct (has_content (use_feedback_text d)) eqn:Hc; [|exact IH].
  apply has_content_spec in Hc. by destruct Hc.
Qed.

(** *** The claims about the index *)

(** C5.  Rows whose feedback text is blank (empty once trimmed) are dropped
    before chunking, and the build raises the empty-corpus error (one of the
    three [ValueError]s of [_setup_vector_store]) exactly when no chunk is
    left; it then stops right after loading, so no index is produced.  A
    corpus without rows, or with blank rows only, is such a case.  The
    providers' own failures are supposed to be of another kind. *)
Theorem setup_fails_exactly_on_empty_corpus (env : Env) (self : FeedbackVectorStore)
  (w : World) (docs : list Document) :
  load env (csv_path self) = Ok docs ->
  (forall e, embeddings_init env "text-embedding-3-small" = Raise e ->
             EmptyCorpusError e = false) ->
  (forall chunks e, index_documents env chunks = Raise e ->
                    EmptyCorpusError e = false) ->
  (forall d, d ∈ List.filter has_content (map use_feedback_text docs)
             <-> d ∈ map use_feedback_text docs /\ strip (page_content d) <> "")
  /\ (fails_with EmptyCorpusError (_setup_vector_store env self w).1 = true
      <-> chunks_of env self docs = [])
  /\ (chunks_of env self docs = [] ->
      (_setup_vector_store env self w).2 = record_call (LoadCSV (csv_path self)) w)
  /\ (Forall (fun d => strip (default "" (metadata d !! "feedback_text")) = "") docs ->
      fails_with EmptyCorpusError (_setup_vector_store env self w).1 = true).
Proof.
  intros Hload Hemb Hidx.
  assert (Hempty : chunks_of env self docs = [] ->
            fails_with EmptyCorpusError (_setup_vector_store env self w).1 = true
            /\ (_setup_vector_store env self w).2
               = record_call (LoadCSV (csv_path self)) w).
  { intros Hc. destruct (setup_without_chunks env self w docs Hload Hc) as (m & Hm & ->).
    split; [|done]. by apply EmptyCorpusError_own. }
  split; [|split; [|split]].
  - intros d. rewrite !list_elem_of_In, filter_In, has_content_spec. tauto.
  - split; [|by intros Hc; apply Hempty].
    intros Hfail. destruct (decide (chunks_of env self docs = [])) as [|Hne]; [done|].
    rewrite (setup_with_chunks env self w docs Hload Hne) in Hfail.
    pose proof (Hemb) as Hemb'. pose proof (Hidx (chunks_of env self docs)) as Hidx'.
    destruct (embeddings_init env _) as [[]|e]; simpl in Hfail.
    + destruct (index_documents env _) as [[]|e]; simpl in Hfail; [done|].
      by rewrite (Hidx' e eq_refl) in Hfail.
    + by rewrite (Hemb' e eq_refl) in Hfail.
  - by intros Hc; apply Hempty.
  - intros Hblank. apply Hempty. unfold chunks_of.
    by rewrite blank_rows_filtered.
Qed.

Lemma setup_fails_exactly_on_empty_corpus_witness :
  fails_with EmptyCorpusError
    (_setup_vector_store (sample_env [row (Some "  "); row None] (Ok ()))
       sample_store fresh_world).1 = true
  /\ (fails_with EmptyCorpusError
        (_setup_vector_store (sample_env sample_rows (Ok ())) sample_store fresh_world).1
      = true
      <-> chunks_of (sample_env sample_rows (Ok ())) sample_store sample_rows = []).
Proof.
  split.
  - apply (setup_fails_exactly_on_empty_corpus
             (sample_env [row (Some "  "); row None] (Ok ())) sample_store fresh_world
             [row (Some "  "); row None] eq_refl); [discriminate..|].
    repeat constructor.
  - apply (setup_fails_exactly_on_empty_corpus
             (sample_env sample_rows (Ok ())) sample_store fresh_world sample_rows
             eq_refl); discriminate.
Defined.

(** C6, as the code has it.  The first access to a fresh store runs the build
    once.  If that build succeeds, every later access, whether to the
    retriever or to the store, answers from the memo: it returns the same
    store, makes no call at all, and all retriever objects returned are the
    one memoized; a query therefore depends on the query text only.  If the
    build raises, nothing is memoized and the next access builds again. *)
Theorem index_memoized_after_success (env : Env) (path : string) (size overlap : nat)
  (w : World) (a : access) (self1 : FeedbackVectorStore) (w1 : World) :
  let self := init path size overlap in
  (forall v o,
      perform env a self w = (Ok (v, o), self1, w1) ->
      builds w1 = S (builds w)
      /\ forall accs q, exists rs self2 w2,
           perform_all env accs self1 w1 = (rs, self2, w2)
           /\ calls w2 = calls w1
           /\ Forall (fun x => exists o', x = Ok (v, o')
                        /\ forall r, o' = Some r -> _retriever self2 = Some r)
                     (Ok (v, o) :: rs)
           /\ (query env self1 w1 q).1.1 = similarity_search env v q
           /\ (query env self2 w2 q).1.1 = similarity_search env v q)
  /\ (forall e,
         perform env a self w = (Raise e, self1, w1) ->
         self1 = self /\ builds w1 = S (builds w)
         /\ builds (perform env a self1 w1).2 = S (S (builds w))).
Proof.
  intros self. pose proof (perform_fresh env a path size overlap w) as Hfresh.
  fold self in Hfresh. cbv zeta in Hfresh.
  assert (Hq : forall s w0 v q, settled v s ->
            (query env s w0 q).1.1 = similarity_search env v q).
  { intros s w0 v q Hs. unfold query.
    destruct (perform_settled env Retriever s w0 v Hs) as (o & s' & w' & Hp & _).
    unfold perform in Hp. destruct (get_retriever env s w0) as [[[r|e] s''] w''];
      cbn [mbind result_bind mret result_ret] in Hp; [|discriminate].
    injection Hp as Hv _ _ _. cbn [mbind result_bind fst]. by rewrite Hv. }
  split.
  - intros v o Hp. rewrite Hp in Hfresh. destruct Hfresh as (Hs & Hb & Ho).
    split; [done|]. intros accs q.
    destruct (perform_all_settled env accs self1 w1 v Hs)
      as (rs & self2 & w2 & Hall & Hs2 & Hc & Hk & Hrs).
    exists rs, self2, w2. split; [done|]. split; [done|]. split; [|split].
    + constructor; [|done]. exists o. split; [done|]. intros r Hr. by apply Hk, Ho.
    + by apply Hq.
    + by apply Hq.
  - intros e Hp. rewrite Hp in Hfresh. destruct Hfresh as [-> Hb].
    split; [done|]. split; [done|].
    pose proof (perform_fresh env a path size overlap w1) as H2.
    fold self in H2. cbv zeta in H2.
    destruct (perform env a self w1) as [[[[v o]|e'] s'] w']; cbn [snd]; lia.
Qed.

Lemma index_memoized_after_success_witness :
  let env := sample_env sample_rows (Ok ()) in
  let first := perform env Retriever sample_store fresh_world in
  builds first.2 = 1
  /\ exists rs self2 w2,
       perform_all env [Retriever; Store; Retriever] first.1.2 first.2 = (rs, self2, w2)
       /\ calls w2 = calls first.2.
Proof.
  intros env first.
  destruct (index_memoized_after_success env "backend/data/feedback_corpus.csv"
              1000 100 fresh_world Retriever first.1.2 first.2) as [H _].
  edestruct H as [Hb Hall]; [vm_compute; reflexivity|].
  split; [exact Hb|].
  destruct (Hall [Retriever; Store; Retriever] "dark mode")
    as (rs & self2 & w2 & Hp & Hc & _).
  by exists rs, self2, w2.
Defined.

(** C6 as written fails when the build raises: with an embedding provider
    that is out of quota, two accesses run the build twice and neither
    returns a handle. *)
Lemma failed_build_counterexample :
  let env := sample_env sample_rows (Raise (Exn "ProviderError" "quota exceeded")) in
  let run := perform_all env [Store; Store] sample_store fresh_world in
  builds run.2 = 2
  /\ run.1.1 = [Raise (Exn "ProviderError" "quota exceeded");
                Raise (Exn "ProviderError" "quota exceeded")]
  /\ _vector_store run.1.2 = None.
Proof. vm_compute. repeat split. Qed.

(** *** Resetting the store *)

Lemma next_id_record_call (c : call) (w : World) :
  next_id (record_call c w) = next_id w.
Proof. reflexivity. Qed.

(** A build that succeeds hands out the next identity and moves on by one. *)
Lemma setup_success (env : Env) (self : FeedbackVectorStore) (w w' : World) (v : Qdrant) :
  _setup_vector_store env self w = (Ok v, w') ->
  qid v = next_id w /\ next_id w' = S (next_id w)
  /\ exists docs, load env (csv_path self) = Ok docs /\ points v = chunks_of env self docs.
Proof.
  unfold _setup_vector_store, chunks_of.
  destruct (load env (csv_path self)) as [docs|e]; [|done].
  destruct docs as [|d docs]; [done|].
  destruct (List.filter has_content (map use_feedback_text (d :: docs))) as [|d' ds]
    eqn:Hfilter; [done|].
  destruct (split_documents env _ _ (d' :: ds)) as [|c cs] eqn:Hsplit; [done|].
  destruct (embeddings_init env _); [|done].
  destruct (index_documents env _); [|done].
  intros [= <- <-]. cbn [qid points allocate next_id record_call].
  split; [done|]. split; [done|]. exists (d :: docs). split; [done|].
  by rewrite Hfilter, Hsplit.
Qed.

(** X4.  [reset] forgets both memos and keeps the settings.  The access
    that follows a reset runs the build again, and if it succeeds it yields
    a new index object, not the one handed out before, over the same chunks
    when the corpus file still loads the same rows. *)
Theorem reset_rebuilds (env : Env) (path : string) (size overlap : nat)
  (w w1 w2 : World) (s1 s2 : FeedbackVectorStore) (v1 : Qdrant) (r2 : result Qdrant) :
  get_vector_store env (init path size overlap) w = (Ok v1, s1, w1) ->
  get_vector_store env (reset s1) w1 = (r2, s2, w2) ->
  reset s1 = init path size overlap
  /\ builds w2 = S (builds w1)
  /\ forall v2, r2 = Ok v2 ->
       qid v1 < qid v2 /\ points v2 = points v1 /\ _vector_store s2 = Some v2.
Proof.
  intros H1 H2.
  assert (Hs1 : reset s1 = init path size overlap
                /\ _setup_vector_store env (init path size overlap) w = (Ok v1, w1)).
  { unfold get_vector_store in H1. cbn [_vector_store init] in H1.
    destruct (_setup_vector_store env (init path size overlap) w) as [[v|e] w'] eqn:Hs;
      [|done].
    injection H1 as <- <- <-. done. }
  destruct Hs1 as [Hreset Hsetup1]. rewrite Hreset in H2. split; [done|].
  unfold get_vector_store in H2. cbn [_vector_store init] in H2.
  pose proof (setup_builds env (init path size overlap) w1) as Hb.
  destruct (_setup_vector_store env (init path size overlap) w1) as [[v|e] w'] eqn:Hs;
    injection H2 as <- <- <-; (split; [exact Hb|]); [|done].
  intros v2 [= <-].
  apply setup_success in Hsetup1 as (Hq1 & Hn1 & docs1 & Hl1 & Hp1).
  apply setup_success in Hs as (Hq2 & _ & docs2 & Hl2 & Hp2).
  rewrite Hl1 in Hl2. injection Hl2 as <-.
  split; [lia|]. split; [congruence|done].
Qed.

Lemma reset_rebuilds_witness :
  let env := sample_env sample_rows (Ok ()) in
  let first := get_vector_store env sample_store fresh_world in
  let second := get_vector_store env (reset first.1.2) first.2 in
  builds second.2 = 2
  /\ (qid <$> _vector_store first.1.2) = Some 0
  /\ (qid <$> _vector_store second.1.2) = Some 1.
Proof.
  intros env first second.
  destruct (reset_rebuilds env "backend/data/feedback_corpus.csv" 1000 100
              fresh_world first.2 second.2 first.1.2 second.1.2
              {| qid := 0; collection_name := "client_feedback";
                 points := chunks_of env sample_store sample_rows |}
              second.1.1 ltac:(vm_compute; reflexivity) ltac:(vm_compute; reflexivity))
    as (_ & Hb & _).
  split; [exact Hb|]. split; vm_compute; reflexivity.
Defined.

End VectorStoreFacts.

(** ** The feedback search tool: proofs *)
Module FeedbackSearchFacts.
Import VectorStore FeedbackSearch.

(** C9.  The feedback search returns a string for every query and never
    raises: the chain's answer when there is one, and otherwise the error
    marker followed by the text of the exception, whether the index could not
    be built, the chat client could not be made, or the chain's run failed;
    the tool built around a caller's retriever does the same. *)
Theorem feedback_search_never_raises (p : Providers) (self : FeedbackSearchTool)
  (w : World) (rag_chain : Chain) (query : string) :
  (exists s, (search p self w query).1.1 = Ok s)
  /\ (forall a, (rag_answer p self w query).1.1 = Ok a ->
                (search p self w query).1.1 = Ok a)
  /\ (forall e, (rag_answer p self w query).1.1 = Raise e ->
                (search p self w query).1.1 = Ok (error_marker +:+ str e))
  /\ (forall e, _rag_chain self = None ->
                (get_retriever (store_env p) (vector_store self) w).1.1 = Raise e ->
                (search p self w query).1.1 = Ok (error_marker +:+ str e))
  /\ (forall c e, _rag_chain self = Some c -> invoke p c query = Raise e ->
                  (search p self w query).1.1 = Ok (error_marker +:+ str e))
  /\ (exists s, feedback_search_tool p rag_chain query = Ok s)
  /\ (forall e, invoke p rag_chain query = Raise e ->
                feedback_search_tool p rag_chain query = Ok (error_marker +:+ str e)).
Proof.
  assert (Hsearch : (search p self w query).1.1
                    = try_except (rag_answer p self w query).1.1
                        (fun e => mret (error_marker +:+ str e))).
  { unfold search. by destruct (rag_answer p self w query) as [[r s] w']. }
  split; [|split; [|split; [|split; [|split; [|split]]]]].
  - rewrite Hsearch. destruct (rag_answer p self w query).1.1; simpl; eauto.
  - intros a Ha. by rewrite Hsearch, Ha.
  - intros e He. by rewrite Hsearch, He.
  - intros e Hnone Hret. rewrite Hsearch. unfold rag_answer, get_rag_chain.
    rewrite Hnone.
    destruct (get_retriever (store_env p) (vector_store self) w) as [[r vs] w'].
    simpl in Hret. by subst r.
  - intros c e Hc Hinv. rewrite Hsearch. unfold rag_answer, get_rag_chain.
    rewrite Hc. simpl. by rewrite Hinv.
  - unfold feedback_search_tool. destruct (invoke p rag_chain query); simpl; eauto.
  - intros e He. unfold feedback_search_tool. by rewrite He.
Qed.

Lemma feedback_search_never_raises_witness :
  (search empty_corpus new_tool fresh_world "dark mode?").1.1
  = Ok "Error searching feedback database: No documents loaded from CSV file"
  /\ (search out_of_quota new_tool fresh_world "dark mode?").1.1
     = Ok "Error searching feedback database: quota exceeded".
Proof.
  split.
  - destruct (feedback_search_never_raises empty_corpus new_tool fresh_world
                {| context := Custom "bm25"; prompt := template; llm := "gpt-4o-mini" |}
                "dark mode?") as (_ & _ & _ & H & _).
    apply (H (ValueError no_documents)); reflexivity.
  - destruct (feedback_search_never_raises out_of_quota new_tool fresh_world
                {| context := Custom "bm25"; prompt := template; llm := "gpt-4o-mini" |}
                "dark mode?") as (_ & _ & H & _).
    apply (H (Exn "ProviderError" "quota exceeded")). vm_compute. reflexivity.
Defined.

(** X5.  The structured search wraps exactly what [search] returns: it never
    raises, its text is the text of [search], it is marked successful
    exactly when the chain answered, and a failure also puts the error text
    into the metadata, beside the query; both leave the tool and the world in
    the same state. *)
Theorem search_with_metadata_envelope (p : Providers) (self : FeedbackSearchTool)
  (w : World) (query : string) :
  exists tr,
    (search_with_metadata p self w query).1.1 = Ok tr
    /\ (search p self w query).1.1 = Ok (Models.tr_result tr)
    /\ Models.tool_name tr = "feedback_search"
    /\ (Models.success tr = true <-> exists a, (rag_answer p self w query).1.1 = Ok a)
    /\ (forall e, (rag_answer p self w query).1.1 = Raise e ->
          Models.success tr = false
          /\ Models.tr_result tr = error_marker +:+ str e
          /\ Models.metadata tr
             = Some {[ "query" := Models.MetaStr query;
                       "error" := Models.MetaStr (str e) ]})
    /\ (search_with_metadata p self w query).1.2 = (search p self w query).1.2
    /\ (search_with_metadata p self w query).2 = (search p self w query).2.
Proof.
  unfold search_with_metadata, search.
  destruct (rag_answer p self w query) as [[[a|e] self'] w']; cbn.
  - eexists. split; [reflexivity|]. cbn.
    split; [done|]. split; [done|]. split; [split; eauto|].
    split; [intros e0 H; discriminate H|done].
  - eexists. split; [reflexivity|]. cbn.
    split; [done|]. split; [done|]. split; [split; [done|intros [a H]; discriminate H]|].
    split; [|done]. by intros e0 [= <-].
Qed.

End FeedbackSearchFacts.

(** ** The retriever factory: proofs *)
Module RetrieversFacts.
Import Retrievers.

Lemma available_rerank (p : Providers) (env : environ) :
  get_available_retrievers p env !! "rerank" = Some (create_rerank_retriever p env 20).
Proof. reflexivity. Qed.

(** The names on offer are the six strategies. *)
Lemma available_names (p : Providers) (env : environ) (name : string) :
  is_Some (get_available_retrievers p env !! name) <-> name ∈ strategies.
Proof.
  unfold get_available_retrievers, strategies.
  rewrite !lookup_insert_is_Some, lookup_singleton_is_Some.
  rewrite !elem_of_cons, elem_of_nil.
  split.
  - intros H. repeat (destruct H as [<-|[_ H]]; [tauto|]). subst. tauto.
  - intros H.
    repeat match goal with
           | |- ?a = name \/ _ =>
               destruct (decide (a = name)); [by left|right; split; [done|]]
           end.
    repeat (destruct H as [->|H]; [congruence|]). destruct H.
Qed.

(** C4.  Without the rerank provider's key in the environment (unset, or set
    to the empty string), building the rerank retriever raises the
    missing-credential error (a [ValueError] in this code) and leaves the
    record of calls as it was when the factory was set up: nothing is asked
    of the embedding provider, the vector store or the rerank provider.  With
    the key, both the vector store and the rerank provider are called. *)
Theorem rerank_requires_credential (p : Providers) (env : environ) (base_k : nat)
  (w : World) :
  (not_set env "COHERE_API_KEY" = true ->
   create_rerank_retriever p env base_k w = (Raise MissingCredentialError, w))
  /\ (env !! "COHERE_API_KEY" = None ->
      create_rerank_retriever p env base_k w = (Raise MissingCredentialError, w)
      /\ exists build, get_available_retrievers p env !! "rerank" = Some build
                       /\ build w = (Raise MissingCredentialError, w))
  /\ (not_set env "COHERE_API_KEY" = false ->
      calls (create_rerank_retriever p env base_k w).2
      = (calls w ++ [AsRetriever base_k; CohereRerankInit])%list).
Proof.
  assert (H1 : not_set env "COHERE_API_KEY" = true ->
               forall k, create_rerank_retriever p env k w
                         = (Raise MissingCredentialError, w)).
  { intros H k. unfold create_rerank_retriever. by rewrite H. }
  assert (H0 : env !! "COHERE_API_KEY" = None -> not_set env "COHERE_API_KEY" = true).
  { intros H. unfold not_set, getenv. by rewrite H. }
  split; [|split].
  - intros H. by apply H1.
  - intros H. split; [by apply H1, H0|].
    exists (create_rerank_retriever p env 20). split; [apply available_rerank|].
    by apply H1, H0.
  - intros H. unfold create_rerank_retriever. rewrite H. simpl.
    by rewrite <- app_assoc.
Qed.

Lemma rerank_requires_credential_witness :
  create_rerank_retriever working no_cohere_key 20 after_init
  = (Raise MissingCredentialError, after_init)
  /\ calls (create_rerank_retriever working with_cohere_key 20 after_init).2
     = [FromDocuments 3; AsRetriever 20; CohereRerankInit].
Proof.
  destruct (rerank_requires_credential working no_cohere_key 20 after_init) as [H _].
  destruct (rerank_requires_credential working with_cohere_key 20 after_init) as (_ & _ & H').
  split; [apply H|apply H']; vm_compute; reflexivity.
Defined.

(** *** The other strategies *)


(** X6.  The ensemble is an even blend of the two basic strategies built for
    the same [k]: its members are what [create_bm25_retriever] and
    [create_naive_retriever] return, in this order, with one weight each and
    weights that add up to 1.  If the keyword retriever cannot be built, the
    error is raised at once and the vector store is not asked for a
    retriever. *)
Theorem ensemble_is_even_blend (p : Providers) (k : nat) (w : World) :
  (forall r w', create_ensemble_retriever p k w = (Ok r, w') ->
     exists bm25 vec weights,
       r = EnsembleRetriever [bm25; vec] weights
       /\ (create_bm25_retriever p k w).1 = Ok bm25
       /\ (create_naive_retriever k (create_bm25_retriever p k w).2).1 = Ok vec
       /\ length weights = 2
       /\ (foldr Qplus 0 weights == 1)%Q
       /\ calls w' = calls w ++ [BM25FromDocuments; AsRetriever k])
  /\ (forall e, bm25_from_documents p = Raise e ->
        create_ensemble_retriever p k w = (Raise e, record_call BM25FromDocuments w)).
Proof.
  unfold create_ensemble_retriever, create_bm25_retriever, create_naive_retriever. split.
  - intros r w'. destruct (bm25_from_documents p) as [[]|e]; cbn; [|done].
    intros [= <- <-]. eexists _, _, _. split; [reflexivity|]. cbn.
    split; [done|]. split; [done|]. split; [done|]. split; [reflexivity|].
    by rewrite <- app_assoc.
  - by intros e ->.
Qed.

Lemma ensemble_is_even_blend_witness :
  exists bm25 vec weights,
    (create_ensemble_retriever working 10 after_init).1
    = Ok (EnsembleRetriever [bm25; vec] weights)
    /\ (foldr Qplus 0 weights == 1)%Q.
Proof.
  destruct (ensemble_is_even_blend working 10 after_init) as [H _].
  destruct (H _ _ eq_refl) as (bm25 & vec & weights & Hr & _ & _ & _ & Hsum & _).
  exists bm25, vec, weights. split; [|exact Hsum]. cbn. by injection Hr as <- <- <-.
Defined.



End RetrieversFacts.

(** ** The evaluation harness: proofs *)
Module EvaluatorFacts.
Import Retrievers RetrieversFacts Evaluator.

(** *** Sorting *)

#[global] Instance key_ge_trans : Transitive key_ge.
Proof.
  intros [x|] [y|] [z|]; simpl; try tauto. intros H1 H2. by apply (Qle_trans _ y).
Qed.

#[global] Instance key_ge_total : Total key_ge.
Proof.
  intros [x|] [y|]; simpl; try tauto.
  destruct (Qlt_le_dec x y) as [H|H]; [right; by apply Qlt_le_weak|by left].
Qed.

#[global] Instance entry_ge_trans : Transitive entry_ge.
Proof. intros p q r. unfold entry_ge. apply key_ge_trans. Qed.

#[global] Instance entry_ge_total : Total entry_ge.
Proof. intros p q. unfold entry_ge. apply key_ge_total. Qed.

Lemma take_rows_seq {A} (pre l : list A) :
  take_rows (seq (length pre) (length l)) (pre ++ l) = l.
Proof.
  revert pre. induction l as [|x l IH]; intros pre; [done|].
  unfold take_rows in *. cbn [length seq omap list_omap].
  rewrite lookup_app_r by lia. rewrite Nat.sub_diag. cbn [lookup list_lookup].
  f_equal. specialize (IH (pre ++ [x])). rewrite length_app, <- app_assoc in IH.
  cbn [length] in IH. by rewrite Nat.add_1_r in IH.
Qed.

Lemma take_rows_fmap {A B} (f : A -> B) (indexer : list nat) (l : list A) :
  f <$> take_rows indexer l = take_rows indexer (f <$> l).
Proof.
  unfold take_rows. induction indexer as [|i indexer IH]; [done|]. cbn [omap list_omap].
  rewrite list_lookup_fmap. destruct (l !! i); csimpl; [f_equal|]; exact IH.
Qed.

Lemma take_rows_entries {A} (keys : list A) (l : list (nat * A)) :
  Forall (fun p => keys !! p.1 = Some p.2) l -> take_rows (l.*1) keys = l.*2.
Proof.
  unfold take_rows. induction 1 as [|[i k] l H _ IH]; [done|].
  csimpl in *. rewrite H. csimpl. f_equal. exact IH.
Qed.

Lemma StronglySorted_fmap_inv {A B} (f : A -> B) (R : relation B) (l : list A) :
  StronglySorted R (f <$> l) -> StronglySorted (fun a b => R (f a) (f b)) l.
Proof.
  induction l as [|x l IH]; intros H; [constructor|].
  change (f <$> x :: l) with (f x :: (f <$> l)) in H.
  apply StronglySorted_inv in H as [Hl Hx]. constructor; [by apply IH|].
  apply Forall_forall. intros y Hy. rewrite Forall_forall in Hx.
  apply Hx. by apply list_elem_of_fmap_2.
Qed.

(** Under a sort that sorts, the frame comes back with the same records,
    ordered by score. *)
Lemma sort_values_sorted (s : Sorter) (rows : list row) :
  sorts s -> sort_values s rows ≡ₚ rows /\ StronglySorted score_ge (sort_values s rows).
Proof.
  intros Hs. destruct (Hs (score <$> rows)) as [Hperm Hsorted]. unfold sort_values. split.
  - unfold take_rows. rewrite Hperm, length_fmap.
    exact (eq_ind_r (fun l => l ≡ₚ rows) (reflexivity rows) (take_rows_seq [] rows)).
  - apply (StronglySorted_fmap_inv score key_ge). by rewrite take_rows_fmap.
Qed.

Lemma merge_sorter_sorts : sorts merge_sorter.
Proof.
  intros keys. cbn [argsort merge_sorter]. unfold merge_argsort.
  set (l := zip (seq 0 (length keys)) keys).
  pose proof (merge_sort_Permutation entry_ge l) as Hperm.
  assert (Hl : Forall (fun p => keys !! p.1 = Some p.2) l).
  { apply Forall_lookup. intros i [j k] Hi. unfold l in Hi.
    apply lookup_zip_with_Some in Hi as (x & y & [= -> ->] & Hx & Hy).
    apply lookup_seq in Hx as [-> _]. done. }
  split.
  - rewrite Hperm. unfold l. by rewrite fst_zip by (by rewrite length_seq).
  - rewrite take_rows_entries by (by rewrite Hperm).
    apply (StronglySorted_fmap snd entry_ge key_ge); [done|].
    apply StronglySorted_merge_sort; apply _.
Qed.

(** Whatever the sort does with equal scores, it does it without looking at
    the latencies: of two records with the same score, put either way round,
    one order comes out with the slower first. *)
Lemma equal_scores_ignore_latency (s : Sorter) :
  sorts s ->
  slower_first (sort_values s [slow; fast]) = true
  \/ slower_first (sort_values s [fast; slow]) = true.
Proof.
  intros Hs. destruct (Hs [Some (8 # 10)%Q; Some (8 # 10)%Q]) as [Hperm _].
  symmetry in Hperm. apply Permutation_length_2_inv in Hperm.
  unfold sort_values.
  change (score <$> [slow; fast]) with [Some (8 # 10)%Q; Some (8 # 10)%Q].
  change (score <$> [fast; slow]) with [Some (8 # 10)%Q; Some (8 # 10)%Q].
  destruct Hperm as [-> | ->]; [left|right]; vm_compute; reflexivity.
Qed.

(** *** The loop of [compare_retrievers] *)

Lemma evaluate_named_ok (sc : Scoring) (name : string)
  (build : World -> result Retriever * World) (qs gts : list string) (w : World) :
  (evaluate_named sc name build qs gts w).1
  = Ok match (build w).1 with
       | Raise e => error_record name e
       | Ok retriever =>
           match _evaluate_single_retriever sc name retriever qs gts with
           | Raise e => error_record name e
           | Ok r => r
           end
       end
  /\ (evaluate_named sc name build qs gts w).2 = (build w).2.
Proof.
  unfold evaluate_named. destruct (build w) as [[retriever|e] w']; simpl; [|done].
  by destruct (_evaluate_single_retriever sc name retriever qs gts).
Qed.

Lemma collect_total (sc : Scoring)
  (available : gmap string (World -> result Retriever * World))
  (names qs gts : list string) :
  forall w, exists results w',
    collect sc available names qs gts w = (Ok results, w')
    /\ Forall2 (record_of sc qs gts)
         (List.filter (fun n => bool_decide (is_Some (available !! n))) names) results.
Proof.
  induction names as [|name names IH]; intros w.
  - exists [], w. split; [done|constructor].
  - cbn [collect List.filter].
    destruct (available !! name) as [build|] eqn:Hname.
    + rewrite bool_decide_eq_true_2 by eauto.
      destruct (evaluate_named_ok sc name build qs gts w) as [Hr Hw].
      destruct (evaluate_named sc name build qs gts w) as [r w1]. simpl in Hr, Hw.
      subst r. destruct (IH w1) as (results & w2 & -> & Hall).
      eexists _, w2. split; [reflexivity|]. constructor; [|done].
      unfold record_of. destruct (build w).1 as [retriever|e]; [|eauto].
      destruct (_evaluate_single_retriever sc name retriever qs gts) eqn:He; eauto.
    + rewrite bool_decide_eq_false_2 by (by intros [? ?]). apply IH.
Qed.

Lemma compare_unfold (s : Sorter) (sc : Scoring)
  (available : gmap string (World -> result Retriever * World))
  (names qs gts : list string) (w : World) (results : list row) (w' : World) :
  collect sc available names qs gts w = (Ok results, w') ->
  compare_retrievers s sc available names qs gts w
  = (Ok (if negb (is_empty results) && has_column "context_recall" results
         then sort_values s results else results), w').
Proof. intros H. unfold compare_retrievers. by rewrite H. Qed.

Lemma has_column_Permutation (c : string) (l1 l2 : list row) :
  l1 ≡ₚ l2 -> has_column c l1 = has_column c l2.
Proof.
  intros H. unfold has_column. apply eq_true_iff_eq.
  rewrite !existsb_exists. setoid_rewrite <- list_elem_of_In.
  by setoid_rewrite H.
Qed.

(** *** The claims about the harness *)

(** C7, as the code has it.  With a sort that sorts, the table returned by
    [compare_retrievers] holds the records gathered by the loop, and when it
    has the quality columns it is ordered by answer relevancy, larger first,
    records without a score last.  Latency takes no part: of two records
    with the same score, in one of their two orders the sort leaves the
    slower one first. *)
Theorem compare_sorted_by_relevancy (s : Sorter) (sc : Scoring)
  (available : gmap string (World -> result Retriever * World))
  (names qs gts : list string) (w : World) :
  sorts s ->
  (exists results table w',
      collect sc available names qs gts w = (Ok results, w')
      /\ compare_retrievers s sc available names qs gts w = (Ok table, w')
      /\ table ≡ₚ results
      /\ (has_column "context_recall" table = true -> StronglySorted score_ge table))
  /\ (slower_first (sort_values s [slow; fast]) = true
      \/ slower_first (sort_values s [fast; slow]) = true).
Proof.
  intros Hs. split; [|by apply equal_scores_ignore_latency].
  destruct (collect_total sc available names qs gts w) as (results & w' & Hc & _).
  destruct (sort_values_sorted s results Hs) as [Hperm Hsorted].
  eexists results, _, w'. split; [done|]. split; [by apply compare_unfold|].
  destruct (negb (is_empty results) && has_column "context_recall" results) eqn:Hcond.
  - split; done.
  - split; [done|]. intros Hcol. apply andb_false_iff in Hcond as [Hcond|Hcond].
    + destruct results; [constructor|done].
    + congruence.
Qed.

Lemma compare_sorted_by_relevancy_witness :
  exists results table w',
    collect unscored (get_available_retrievers working no_cohere_key)
      ["bm25"; "rerank"; "naive"] golden_questions golden_truths no_calls
    = (Ok results, w')
    /\ compare_retrievers merge_sorter unscored
         (get_available_retrievers working no_cohere_key)
         ["bm25"; "rerank"; "naive"] golden_questions golden_truths no_calls
       = (Ok table, w')
    /\ table ≡ₚ results
    /\ (has_column "context_recall" table = true -> StronglySorted score_ge table).
Proof.
  exact (proj1 (compare_sorted_by_relevancy merge_sorter unscored
                  (get_available_retrievers working no_cohere_key)
                  ["bm25"; "rerank"; "naive"] golden_questions golden_truths no_calls
                  merge_sorter_sorts)).
Defined.

(** C7 as written fails on ties: without the scoring library every record
    scores 0.8, and the table for [naive] (two seconds a question) and [bm25]
    (one second) lists the slower retriever first. *)
Lemma latency_tie_break_counterexample :
  match (compare_retrievers merge_sorter unscored
           (get_available_retrievers working no_cohere_key)
           ["naive"; "bm25"] golden_questions golden_truths no_calls).1 with
  | Ok table =>
      has_column "context_recall" table = true
      /\ score <$> table = [Some (8 # 10)%Q; Some (8 # 10)%Q]
      /\ (fun r => r !! "retriever") <$> table = [Some (CStr "naive"); Some (CStr "bm25")]
      /\ slower_first table = true
  | Raise _ => False
  end.
Proof. vm_compute. repeat split. Qed.

(** C8.  When the questions have run, a harness without the scoring library,
    or one whose scoring raises, returns the record of
    [_calculate_basic_metrics]: its quality figures are the capped ratios of
    the mean context length to 100 and to 200 words and of the mean answer
    length to 50 words, with 0.8 for answer relevancy, and it carries the
    note that basic metrics were used.  Every record that is returned is
    either this flagged one or one built from the library's scores, which
    has no note. *)
Theorem degraded_records_are_flagged (sc : Scoring) (name : string)
  (retriever : Retriever) (qs gts : list string) (run : Run) :
  run_questions sc retriever qs no_run = Ok run ->
  let basic := basic_record name qs run in
  let avg_answer := np_mean (map (fun a => of_nat (word_count a)) (answers run)) in
  let avg_context :=
    np_mean (map (fun c => of_nat (word_count (String.concat " " c))) (contexts run)) in
  let dataset := {| ds_question := qs; ds_answer := answers run;
                    ds_contexts := contexts run; ds_ground_truth := gts |} in
  (basic !! "note" = Some (CStr note)
   /\ basic !! "context_recall"
      = Some (CFloat (py_min (divide avg_context 100) (Some 1%Q)))
   /\ basic !! "faithfulness"
      = Some (CFloat (py_min (divide avg_answer 50) (Some 1%Q)))
   /\ basic !! "answer_relevancy" = Some (CFloat (Some (8 # 10)%Q))
   /\ basic !! "context_precision"
      = Some (CFloat (py_min (divide avg_context 200) (Some 1%Q))))
  /\ (RAGAS_METRICS_AVAILABLE sc = false ->
      _evaluate_single_retriever sc name retriever qs gts = Ok basic)
  /\ (forall e, evaluate sc dataset = Raise e ->
                _evaluate_single_retriever sc name retriever qs gts = Ok basic)
  /\ (forall scores e, evaluate sc dataset = Ok scores ->
                       scored_record name scores qs run = Raise e ->
                       _evaluate_single_retriever sc name retriever qs gts = Ok basic)
  /\ (forall r, _evaluate_single_retriever sc name retriever qs gts = Ok r ->
                r = basic
                \/ (exists scores, evaluate sc dataset = Ok scores
                                   /\ scored_record name scores qs run = Ok r
                                   /\ r !! "note" = None)).
Proof.
  intros Hrun basic avg_answer avg_context dataset.
  assert (Heval : _evaluate_single_retriever sc name retriever qs gts
                  = if RAGAS_METRICS_AVAILABLE sc
                    then try_except
                           (scores ← evaluate sc dataset; scored_record name scores qs run)
                           (fun _ => mret basic)
                    else mret basic).
  { unfold _evaluate_single_retriever. by rewrite Hrun. }
  split; [|split; [|split; [|split]]].
  - repeat split; reflexivity.
  - intros Hno. by rewrite Heval, Hno.
  - intros e He. rewrite Heval, He. by destruct (RAGAS_METRICS_AVAILABLE sc).
  - intros scores e He Hs. rewrite Heval, He. cbn [mbind result_bind]. rewrite Hs.
    by destruct (RAGAS_METRICS_AVAILABLE sc).
  - intros r Hr. rewrite Heval in Hr.
    destruct (RAGAS_METRICS_AVAILABLE sc); [|left; by injection Hr].
    destruct (evaluate sc dataset) as [scores|e]; [|left; by injection Hr].
    cbn [mbind result_bind] in Hr.
    destruct (scored_record name scores qs run) as [r'|e] eqn:Hs; [|left; by injection Hr].
    injection Hr as <-. right. exists scores. split; [done|]. split; [done|].
    unfold scored_record in Hs.
    destruct (extract_metric scores "context_recall"); [|done].
    destruct (extract_metric scores "faithfulness"); [|done].
    destruct (extract_metric scores "answer_relevancy"); [|done].
    destruct (extract_metric scores "context_precision"); [|done].
    cbn [mbind result_bind mret result_ret] in Hs. injection Hs as <-. reflexivity.
Qed.

Lemma degraded_records_are_flagged_witness :
  exists r, _evaluate_single_retriever unscored "bm25" (BM25Retriever 10)
              golden_questions golden_truths = Ok r
            /\ r !! "note" = Some (CStr note)
            /\ r !! "faithfulness" = Some (CFloat (Some (5 # 50)%Q))
            /\ r !! "context_recall" = Some (CFloat (Some (8 # 100)%Q))
            /\ r !! "answer_relevancy" = Some (CFloat (Some (8 # 10)%Q)).
Proof.
  destruct (run_questions unscored (BM25Retriever 10) golden_questions no_run)
    as [run|] eqn:Hrun; [|discriminate Hrun].
  destruct (degraded_records_are_flagged unscored "bm25" (BM25Retriever 10)
              golden_questions golden_truths run Hrun) as (_ & H & _).
  eexists. split; [by apply H|].
  injection Hrun as <-. vm_compute. repeat split.
Defined.

(** C10.  [compare_retrievers] returns a table for every list of names: a
    name that is not one of the six strategies leaves no record; in the
    order asked, every other name has its record, the error record or what
    the evaluation returned; a retriever that cannot be built or whose
    evaluation raises gets the error record, which holds its name and the
    error text and nothing else, and the loop goes on with the names that
    follow. *)
Theorem compare_isolates_failures (s : Sorter) (sc : Scoring) (p : Providers)
  (env : environ) (names qs gts : list string) (w : World) :
  let available := get_available_retrievers p env in
  (exists results w',
      collect sc available names qs gts w = (Ok results, w')
      /\ compare_retrievers s sc available names qs gts w
         = (Ok (if negb (is_empty results) && has_column "context_recall" results
                then sort_values s results else results), w')
      /\ Forall2 (record_of sc qs gts)
           (List.filter (fun n => bool_decide (n ∈ strategies)) names) results)
  /\ (forall name rest w0,
         name ∉ strategies ->
         collect sc available (name :: rest) qs gts w0
         = collect sc available rest qs gts w0)
  /\ (forall name rest w0 build,
         available !! name = Some build ->
         exists r, r = match (build w0).1 with
                       | Raise e => error_record name e
                       | Ok retriever =>
                           match _evaluate_single_retriever sc name retriever qs gts with
                           | Raise e => error_record name e
                           | Ok r => r
                           end
                       end
                   /\ exists results w2,
                        collect sc available rest qs gts (build w0).2 = (Ok results, w2)
                        /\ collect sc available (name :: rest) qs gts w0
                           = (Ok (r :: results), w2))
  /\ (forall name e,
         dom (error_record name e) = {[ "retriever"; "error" ]}
         /\ error_record name e !! "retriever" = Some (CStr name)
         /\ error_record name e !! "error" = Some (CStr (str e))).
Proof.
  intros available.
  assert (Hnames : forall n, is_Some (available !! n) <-> n ∈ strategies)
    by apply available_names.
  clearbody available. split; [|split; [|split]].
  - destruct (collect_total sc available names qs gts w) as (results & w' & Hc & Hall).
    exists results, w'. split; [done|]. split; [by apply compare_unfold|].
    erewrite filter_ext; [exact Hall|]. intros name. cbn beta.
    apply bool_decide_ext. symmetry. apply Hnames.
  - intros name rest w0 Hname. cbn [collect].
    destruct (available !! name) as [build|] eqn:Hl; [|done].
    exfalso. apply Hname, Hnames. by rewrite Hl.
  - intros name rest w0 build Hbuild. eexists. split; [reflexivity|].
    destruct (collect_total sc available rest qs gts (build w0).2)
      as (results & w2 & Hc & _).
    exists results, w2. split; [done|]. cbn [collect]. rewrite Hbuild.
    destruct (evaluate_named_ok sc name build qs gts w0) as [Hr Hw].
    destruct (evaluate_named sc name build qs gts w0) as [r w1]. simpl in Hr, Hw.
    subst r w1. by rewrite Hc.
  - intros name e. split; [|split; reflexivity].
    unfold error_record. rewrite dom_insert_L, dom_singleton_L. set_solver.
Qed.

Lemma compare_isolates_failures_witness :
  exists results w',
    collect unscored (get_available_retrievers working no_cohere_key)
      ["rerank"; "hybrid"; "naive"] golden_questions golden_truths no_calls
    = (Ok results, w')
    /\ Forall2 (record_of unscored golden_questions golden_truths)
         ["rerank"; "naive"] results.
Proof.
  destruct (compare_isolates_failures merge_sorter unscored working no_cohere_key
              ["rerank"; "hybrid"; "naive"] golden_questions golden_truths no_calls)
    as [(results & w' & Hc & _ & Hall) _].
  exists results, w'. split; [exact Hc|exact Hall].
Defined.

(** *** The loop over the questions *)

Lemma run_questions_acc (sc : Scoring) (retriever : Retriever) (qs : list string) :
  forall acc run,
    run_questions sc retriever qs acc = Ok run ->
    exists new_answers new_contexts,
      answers run = answers acc ++ new_answers
      /\ contexts run = contexts acc ++ new_contexts
      /\ latencies run = latencies acc ++ map (elapsed sc retriever) qs
      /\ total_cost run = cost_so_far sc retriever (total_cost acc) qs
      /\ Forall2 (fun q a => chain_invoke sc retriever q = Ok a) qs new_answers
      /\ Forall2 (fun q c => retriever_invoke sc retriever q = Ok c) qs new_contexts.
Proof.
  induction qs as [|q qs IH]; intros acc run H.
  - injection H as <-. exists [], []. rewrite !app_nil_r. repeat split; constructor.
  - cbn [run_questions] in H.
    destruct (chain_invoke sc retriever q) as [a|e] eqn:Ha; [|done].
    destruct (retriever_invoke sc retriever q) as [c|e] eqn:Hc; [|done].
    cbn [mbind result_bind] in H.
    apply IH in H as (new_a & new_c & H1 & H2 & H3 & H4 & H5 & H6).
    cbn [answers contexts latencies total_cost] in *.
    exists (a :: new_a), (c :: new_c).
    rewrite H1, H2, H3, H4, <- !app_assoc. cbn.
    repeat split; by constructor.
Qed.

Lemma run_questions_raises (sc : Scoring) (retriever : Retriever) (qs : list string) :
  forall acc,
    raises (run_questions sc retriever qs acc) = true
    <-> Exists (fun q => raises (chain_invoke sc retriever q) = true
                         \/ raises (retriever_invoke sc retriever q) = true) qs.
Proof.
  induction qs as [|q qs IH]; intros acc.
  - cbn. rewrite Exists_nil. split; [discriminate|tauto].
  - cbn [run_questions]. rewrite Exists_cons.
    destruct (chain_invoke sc retriever q) as [a|e]; cbn; [|tauto].
    destruct (retriever_invoke sc retriever q) as [c|e]; cbn; [|tauto].
    rewrite IH. split; [tauto|]. intros [[H|H]|H]; done.
Qed.

(** X8.  The loop over the questions keeps its lists aligned with the
    questions: one answer, one list of contexts and one latency for each
    question, in the order of the questions, and the cost is the running sum
    of what the callback reported.  It raises exactly when the chain or the
    retrieval fails for one of the questions; no partial run is returned. *)
Theorem run_keeps_questions_aligned (sc : Scoring) (retriever : Retriever)
  (qs : list string) :
  (forall run,
      run_questions sc retriever qs no_run = Ok run ->
      length (answers run) = length qs
      /\ length (contexts run) = length qs
      /\ latencies run = map (elapsed sc retriever) qs
      /\ total_cost run = cost_so_far sc retriever 0 qs
      /\ Forall2 (fun q a => chain_invoke sc retriever q = Ok a) qs (answers run)
      /\ Forall2 (fun q c => retriever_invoke sc retriever q = Ok c) qs (contexts run))
  /\ (raises (run_questions sc retriever qs no_run) = true
      <-> Exists (fun q => raises (chain_invoke sc retriever q) = true
                           \/ raises (retriever_invoke sc retriever q) = true) qs).
Proof.
  split; [|apply run_questions_raises].
  intros run H. apply run_questions_acc in H as (na & nc & H1 & H2 & H3 & H4 & H5 & H6).
  cbn in H1, H2, H3, H4. subst na nc.
  split; [symmetry; by eapply Forall2_length|].
  split; [symmetry; by eapply Forall2_length|]. done.
Qed.

Lemma run_keeps_questions_aligned_witness :
  exists run,
    run_questions unscored (BM25Retriever 10) golden_questions no_run = Ok run
    /\ length (answers run) = 1 /\ length (contexts run) = 1.
Proof.
  destruct (run_keeps_questions_aligned unscored (BM25Retriever 10) golden_questions)
    as [H _].
  eexists. split; [reflexivity|]. destruct (H _ eq_refl) as (H1 & H2 & _).
  split; [exact H1|exact H2].
Defined.

(** *** Counting words *)

Lemma words_from_app_space (b : bool) (s1 s2 : string) :
  words_from b (s1 +:+ String " " s2) = words_from b s1 + words_from false s2.
Proof.
  revert b. induction s1 as [|a s1 IH]; intros b; [done|].
  change (String a s1 +:+ String " " s2) with (String a (s1 +:+ String " " s2)).
  cbn [words_from]. destruct (VectorStore.is_space a); rewrite IH; lia.
Qed.

(** X9.  Joining passages with single spaces neither merges nor splits
    words: the number of words of the joined text, which is what the context
    length of a question is computed from, is the sum over the passages. *)
Theorem joined_word_count (passages : list string) :
  word_count (String.concat " " passages) = sum_list (word_count <$> passages).
Proof.
  induction passages as [|s [|s' passages] IH]; [done| |].
  - change (word_count s = word_count s + 0). lia.
  - change (String.concat " " (s :: s' :: passages))
      with (s +:+ String " " (String.concat " " (s' :: passages))).
    unfold word_count in *. rewrite words_from_app_space, IH. reflexivity.
Qed.

(** *** The fallback figures *)

Lemma np_mean_counts (counts : list nat) :
  counts <> [] -> exists m, np_mean (of_nat <$> counts) = Some m /\ (0 <= m)%Q.
Proof.
  intros Hne. destruct counts as [|c counts]; [done|].
  eexists. split; [reflexivity|].
  apply Qle_shift_div_l.
  - unfold of_nat. cbn [length fmap list_fmap]. unfold Qlt. cbn. lia.
  - rewrite Qmult_0_l.
    assert (H : forall l : list nat, (0 <= foldr Qplus 0 (of_nat <$> l))%Q).
    { induction l as [|x l IHl]; cbn; [apply Qle_refl|].
      apply (Qplus_le_compat 0 _ 0); [|exact IHl].
      unfold of_nat, Qle. cbn. lia. }
    apply (H (c :: counts)).
Qed.

Lemma py_min_cap (x d : Q) :
  (0 <= x)%Q -> (0 < d)%Q ->
  exists m, py_min (divide (Some x) d) (Some 1%Q) = Some m
            /\ (0 <= m)%Q /\ (m <= 1)%Q /\ (m <= x / d)%Q
            /\ ((x / d <= 1)%Q -> m = (x / d)%Q)
            /\ ((1 < x / d)%Q -> m = 1%Q).
Proof.
  intros Hx Hd. cbn. assert (0 <= x / d)%Q by (apply Qle_shift_div_l; lra).
  destruct (Qlt_le_dec 1 (x / d)) as [Hlt|Hle]; eexists; (split; [reflexivity|]).
  - repeat split; try lra; intros; lra.
  - repeat split; try lra; intros; lra.
Qed.

(** X10.  With at least one question the fallback figures are fractions
    between 0 and 1, and the context precision never exceeds the context
    recall, being the same mean length measured against 200 words instead of
    100; with no question at all they are not numbers. *)
Theorem basic_metrics_within_unit (name : string) (answers : list string)
  (contexts : list (list string)) (questions : list string) (latencies : list Q)
  (cost : Q) :
  let r := _calculate_basic_metrics name answers contexts questions latencies cost in
  (answers <> [] ->
   exists f, r !! "faithfulness" = Some (CFloat (Some f)) /\ (0 <= f <= 1)%Q)
  /\ (contexts <> [] ->
      exists recall precision,
        r !! "context_recall" = Some (CFloat (Some recall))
        /\ r !! "context_precision" = Some (CFloat (Some precision))
        /\ (0 <= precision)%Q /\ (precision <= recall)%Q /\ (recall <= 1)%Q)
  /\ (answers = [] -> r !! "faithfulness" = Some (CFloat None))
  /\ (contexts = [] ->
      r !! "context_recall" = Some (CFloat None)
      /\ r !! "context_precision" = Some (CFloat None)).
Proof.
  intros r.
  assert (Hf : r !! "faithfulness"
               = Some (CFloat (py_min (divide (np_mean ((fun a => of_nat (word_count a)) <$> answers)) 50)
                                      (Some 1%Q)))) by reflexivity.
  assert (Hr : r !! "context_recall"
               = Some (CFloat (py_min (divide (np_mean ((fun c => of_nat (word_count (String.concat " " c))) <$> contexts)) 100)
                                      (Some 1%Q)))) by reflexivity.
  assert (Hp : r !! "context_precision"
               = Some (CFloat (py_min (divide (np_mean ((fun c => of_nat (word_count (String.concat " " c))) <$> contexts)) 200)
                                      (Some 1%Q)))) by reflexivity.
  split; [|split; [|split]].
  - intros Hne. rewrite Hf.
    destruct (np_mean_counts (word_count <$> answers)) as (m & Hm & Hm0);
      [by destruct answers|].
    rewrite <- list_fmap_compose in Hm. unfold compose in Hm. rewrite Hm.
    destruct (py_min_cap m 50 Hm0 ltac:(lra)) as (f & -> & ? & ? & _).
    exists f. by repeat split.
  - intros Hne. rewrite Hr, Hp.
    destruct (np_mean_counts ((fun c => word_count (String.concat " " c)) <$> contexts))
      as (m & Hm & Hm0); [by destruct contexts|].
    rewrite <- list_fmap_compose in Hm. unfold compose in Hm. rewrite Hm.
    destruct (py_min_cap m 100 Hm0 ltac:(lra))
      as (recall & -> & Hr0 & Hr1 & Hrle & Hreq & Hrcap).
    destruct (py_min_cap m 200 Hm0 ltac:(lra))
      as (prec & -> & Hp0 & Hp1 & Hple & Hpeq & _).
    exists recall, prec. repeat split; try done.
    assert (Hhalf : (m / 200 <= m / 100)%Q).
    { unfold Qdiv. apply Qmult_le_compat_nonneg; [split; [done|apply Qle_refl]|].
      split; [by vm_compute|]. unfold Qle. cbn. lia. }
    destruct (Qlt_le_dec 1 (m / 100)) as [Hbig|Hsmall].
    + by rewrite (Hrcap Hbig).
    + rewrite (Hreq Hsmall). lra.
  - intros ->. by rewrite Hf.
  - intros ->. by rewrite Hr, Hp.
Qed.

(** *** What every record reports *)

Lemma scored_record_fields (name : string) (ragas_result : gmap string metric)
  (qs : list string) (run : Run) (r : row) :
  scored_record name ragas_result qs run = Ok r ->
  r !! "retriever" = Some (CStr name)
  /\ r !! "num_questions" = Some (CInt (length qs))
  /\ r !! "avg_latency_s" = Some (CFloat (np_mean (latencies run)))
  /\ r !! "total_cost_usd" = Some (CFloat (Some (total_cost run))).
Proof.
  unfold scored_record. intros H.
  destruct (extract_metric ragas_result "context_recall"); [|done].
  destruct (extract_metric ragas_result "faithfulness"); [|done].
  destruct (extract_metric ragas_result "answer_relevancy"); [|done].
  destruct (extract_metric ragas_result "context_precision"); [|done].
  injection H as <-. repeat split; reflexivity.
Qed.

(** X11.  Whichever way a retriever was scored, by the scoring library or by
    the fallback, its record carries its name, the number of questions, the
    mean of the latencies measured for the questions and the sum of the costs
    the callback reported. *)
Theorem record_reports_the_run (sc : Scoring) (name : string) (retriever : Retriever)
  (qs gts : list string) (r : row) :
  _evaluate_single_retriever sc name retriever qs gts = Ok r ->
  r !! "retriever" = Some (CStr name)
  /\ r !! "num_questions" = Some (CInt (length qs))
  /\ r !! "avg_latency_s" = Some (CFloat (np_mean (map (elapsed sc retriever) qs)))
  /\ r !! "total_cost_usd" = Some (CFloat (Some (cost_so_far sc retriever 0 qs))).
Proof.
  unfold _evaluate_single_retriever. intros H.
  destruct (run_questions sc retriever qs no_run) as [run|e] eqn:Hrun; [|done].
  apply run_questions_acc in Hrun as (na & nc & _ & _ & Hl & Hc & _ & _).
  cbn in Hl, Hc. cbn [mbind result_bind] in H.
  assert (Hbasic : forall r0, basic_record name qs run = r0 ->
            r0 !! "retriever" = Some (CStr name)
            /\ r0 !! "num_questions" = Some (CInt (length qs))
            /\ r0 !! "avg_latency_s" = Some (CFloat (np_mean (latencies run)))
            /\ r0 !! "total_cost_usd" = Some (CFloat (Some (total_cost run)))).
  { intros r0 <-. repeat split; reflexivity. }
  rewrite <- Hl, <- Hc.
  destruct (RAGAS_METRICS_AVAILABLE sc).
  - unfold try_except in H.
    destruct (evaluate sc _) as [res|e]; cbn [mbind result_bind] in H.
    + destruct (scored_record name res qs run) as [r1|e] eqn:Hs.
      * injection H as <-. by eapply scored_record_fields.
      * injection H as <-. by apply Hbasic.
    + injection H as <-. by apply Hbasic.
  - injection H as <-. by apply Hbasic.
Qed.

Lemma record_reports_the_run_witness :
  exists r,
    _evaluate_single_retriever unscored "bm25" (BM25Retriever 10)
      golden_questions golden_truths = Ok r
    /\ r !! "retriever" = Some (CStr "bm25")
    /\ r !! "num_questions" = Some (CInt 1).
Proof.
  eexists. split; [reflexivity|].
  destruct (record_reports_the_run unscored "bm25" (BM25Retriever 10)
              golden_questions golden_truths _ eq_refl) as (H1 & H2 & _).
  split; [exact H1|exact H2].
Defined.








End EvaluatorFacts.

(** ** The data models: proofs *)
Module ModelsFacts.
Import Models.

(** X14.  A configuration passes validation exactly when its four numeric
    fields are within their bounds, and the defaults pass.  The bounds do not
    tie the overlap to the chunk size: for every chunk size from 100 to 500,
    an overlap of 500, which is at least the chunk size, is accepted too,
    and is handed to the vector store as it is. *)
Theorem config_bounds (c : AgentConfig) :
  (validate c = Ok c
   <-> ((0 <= temperature c)%Q /\ (temperature c <= 2)%Q)
       /\ (1 <= max_web_results c <= 10)%Z
       /\ (100 <= chunk_size c <= 5000)%Z
       /\ (0 <= chunk_overlap c <= 500)%Z)
  /\ (forall c', validate c = Ok c' -> c' = c)
  /\ validate default_config = Ok default_config
  /\ (forall size : Z,
        (100 <= size <= 500)%Z ->
        let wide := {| csv_path := csv_path c; model_name := model_name c;
                       temperature := 0; max_web_results := 3;
                       chunk_size := size; chunk_overlap := 500 |} in
        validate wide = Ok wide
        /\ VectorStore.chunk_size (store_of wide)
           <= VectorStore.chunk_overlap (store_of wide)).
Proof.
  split; [|split; [|split]].
  - unfold validate.
    destruct (Qle_bool 0 (temperature c)) eqn:H1;
      destruct (Qle_bool (temperature c) 2) eqn:H2;
      destruct (1 <=? max_web_results c)%Z eqn:H3;
      destruct (max_web_results c <=? 10)%Z eqn:H4;
      destruct (100 <=? chunk_size c)%Z eqn:H5;
      destruct (chunk_size c <=? 5000)%Z eqn:H6;
      destruct (0 <=? chunk_overlap c)%Z eqn:H7;
      destruct (chunk_overlap c <=? 500)%Z eqn:H8; cbn;
      rewrite ?Z.leb_le, ?Z.leb_gt in *;
      try apply Qle_bool_iff in H1; try apply Qle_bool_iff in H2;
      (split; [intros [=] || (intros _; repeat split; assumption)|]);
      try done;
      intros ((Ht1 & Ht2) & (? & ?) & (? & ?) & (? & ?)); try lia;
      try (apply Qle_bool_iff in Ht1; congruence);
      try (apply Qle_bool_iff in Ht2; congruence).
  - unfold validate. intros c'.
    repeat match goal with |- context [if ?b then _ else _] => destruct b end;
      congruence.
  - reflexivity.
  - intros size Hsize wide. split.
    + unfold validate, wide. cbn.
      destruct (100 <=? size)%Z eqn:H5; [|apply Z.leb_gt in H5; lia].
      destruct (size <=? 5000)%Z eqn:H6; [|apply Z.leb_gt in H6; lia]. reflexivity.
    + unfold store_of, wide. cbn. lia.
Qed.

End ModelsFacts.

(** ** The web search tool: proofs *)
Module WebSearchFacts.
Import WebSearch.



End WebSearchFacts.

(** ** The golden dataset: proofs *)
Module GoldenDatasetFacts.
Import VectorStore VectorStoreFacts GoldenDataset.

(** X16.  The evaluation corpus is the serving corpus: on the rows a file
    loads, [load_documents] keeps exactly the rows with a feedback text that
    is not blank, in their order, so the chunks of the vector store are the
    split of these documents.  Unlike the build of the index, it does not
    object to a corpus with no usable row: it returns the empty list. *)
Theorem golden_documents_match_index (env : Env) (self : FeedbackVectorStore)
  (docs : list Document) :
  load env (csv_path self) = Ok docs ->
  exists documents,
    load_documents env (csv_path self) = Ok documents
    /\ chunks_of env self docs
       = split_documents env (chunk_size self) (chunk_overlap self) documents
    /\ Forall (fun d => strip (page_content d) <> "") documents
    /\ (forall d, d ∈ documents
                  <-> d ∈ map use_feedback_text docs /\ strip (page_content d) <> "")
    /\ (Forall (fun d => strip (default "" (metadata d !! "feedback_text")) = "") docs ->
        documents = []).
Proof.
  intros Hload. unfold load_documents. rewrite Hload. cbn [mbind result_bind mret result_ret].
  eexists. split; [reflexivity|]. split; [reflexivity|]. split; [|split].
  - apply Forall_forall. intros d Hd. apply list_elem_of_In, filter_In in Hd as [_ Hd].
    by apply has_content_spec.
  - intros d. rewrite !list_elem_of_In, filter_In, has_content_spec. tauto.
  - apply blank_rows_filtered.
Qed.

Lemma golden_documents_match_index_witness :
  (exists documents,
      load_documents (sample_env sample_rows (Ok ())) "backend/data/feedback_corpus.csv"
      = Ok documents
      /\ chunks_of (sample_env sample_rows (Ok ())) sample_store sample_rows
         = split_documents (sample_env sample_rows (Ok ())) 1000 100 documents
      /\ Forall (fun d => strip (page_content d) <> "") documents)
  /\ load_documents (sample_env [row (Some "  "); row None] (Ok ()))
       "backend/data/feedback_corpus.csv" = Ok [].
Proof.
  split.
  - destruct (golden_documents_match_index (sample_env sample_rows (Ok ())) sample_store
                sample_rows eq_refl) as (documents & Hd & Hc & Hf & _).
    exists documents. split; [exact Hd|]. split; [exact Hc|exact Hf].
  - destruct (golden_documents_match_index
                (sample_env [row (Some "  "); row None] (Ok ())) sample_store
                [row (Some "  "); row None] eq_refl) as (documents & Hd & _ & _ & _ & He).
    cbn [csv_path sample_store init] in Hd. rewrite Hd. f_equal. apply He.
    repeat constructor.
Defined.

Lemma length_slice_to {A} (n : Z) (xs : list A) :
  Z.of_nat (length (slice_to n xs))
  = (if (0 <=? n)%Z then Z.min n (Z.of_nat (length xs))
     else Z.max 0 (Z.of_nat (length xs) + n))%Z.
Proof.
  unfold slice_to. destruct (0 <=? n)%Z eqn:Hn; rewrite length_take.
  - apply Z.leb_le in Hn. lia.
  - apply Z.leb_gt in Hn. lia.
Qed.

(** X17.  When the corpus loads and the scoring library is installed, the
    golden dataset has [min(test_size, 15)] pairs for a test size that is
    not negative, and [15 + test_size] pairs (none below -15) for a negative
    one, which cuts questions off the end of the list; the questions are the
    first of the fixed list, in order, and the ground truths are numbered
    from 1.  Without the library it raises, after having loaded the corpus. *)
Theorem golden_dataset_size (env : Env) (api : option bool) (path : string)
  (test_size : Z) (documents : list Document) :
  load_documents env path = Ok documents ->
  (api = None -> generate_golden_dataset env api path test_size = Raise not_installed)
  /\ (api <> None ->
      exists pairs,
        generate_golden_dataset env api path test_size = Ok pairs
        /\ Z.of_nat (length pairs)
           = (if (0 <=? test_size)%Z then Z.min test_size 15
              else Z.max 0 (15 + test_size))%Z
        /\ pairs.*1 `prefix_of` sample_questions
        /\ (forall i q g, pairs !! i = Some (q, g) ->
              sample_questions !! i = Some q /\ g = ground_truth i)
        /\ (forall i j q g g', pairs !! i = Some (q, g) -> pairs !! j = Some (q, g') ->
              i = j)).
Proof.
  intros Hload. unfold generate_golden_dataset. rewrite Hload.
  cbn [mbind result_bind mret result_ret]. split; [by intros ->|].
  intros Hapi. destruct api as [b|]; [|done]. eexists. split; [reflexivity|].
  set (n := Z.min test_size (Z.of_nat (length sample_questions))).
  assert (Hpre : slice_to n sample_questions `prefix_of` sample_questions).
  { unfold slice_to. destruct (0 <=? n)%Z; apply prefix_take. }
  assert (Hlook : forall i q g,
             imap (fun i question => (question, ground_truth i))
                  (slice_to n sample_questions) !! i = Some (q, g) ->
             slice_to n sample_questions !! i = Some q /\ g = ground_truth i).
  { intros i q g Hi. rewrite list_lookup_imap in Hi.
    destruct (slice_to n sample_questions !! i) as [q'|]; [|done].
    by injection Hi as <- <-. }
  split; [|split; [|split]].
  - rewrite length_imap, length_slice_to. subst n.
    change (Z.of_nat (length sample_questions)) with 15%Z.
    destruct (0 <=? test_size)%Z eqn:Ht.
    + apply Z.leb_le in Ht. rewrite (proj2 (Z.leb_le 0 _)) by lia. lia.
    + apply Z.leb_gt in Ht. rewrite (proj2 (Z.leb_gt 0 _)) by lia. lia.
  - rewrite fmap_imap. unfold compose. cbn [fst].
    change (fun (_ : nat) (x : string) => x) with (const (@id string) : nat -> _).
    by rewrite imap_const, list_fmap_id.
  - intros i q g Hi. destruct (Hlook i q g Hi) as [Hq ->]. split; [|done].
    by eapply prefix_lookup_Some.
  - intros i j q g g' Hi Hj.
    destruct (Hlook i q g Hi) as [Hqi ->]. destruct (Hlook j q g' Hj) as [Hqj ->].
    assert (Hnd : NoDup sample_questions)
      by (apply (bool_decide_unpack (NoDup sample_questions)); vm_compute; exact I).
    eapply NoDup_lookup; [exact Hnd| |]; by eapply prefix_lookup_Some.
Qed.

Lemma golden_dataset_size_witness :
  (exists pairs,
      generate_golden_dataset (sample_env sample_rows (Ok ())) (Some true)
        "backend/data/feedback_corpus.csv" (-3) = Ok pairs
      /\ Z.of_nat (length pairs) = 12%Z)
  /\ generate_golden_dataset (sample_env sample_rows (Ok ())) None
       "backend/data/feedback_corpus.csv" 15 = Raise not_installed.
Proof.
  destruct (golden_dataset_size (sample_env sample_rows (Ok ())) (Some true)
              "backend/data/feedback_corpus.csv" (-3) _ eq_refl) as [_ H].
  destruct (golden_dataset_size (sample_env sample_rows (Ok ())) None
              "backend/data/feedback_corpus.csv" 15 _ eq_refl) as [H' _].
  split; [|by apply H'].
  destruct (H ltac:(discriminate)) as (pairs & Hp & Hlen & _).
  exists pairs. split; [exact Hp|exact Hlen].
Defined.

End GoldenDatasetFacts.

(** ** The dataset endpoint: proofs *)
Module MainFacts.
Import Main.

Lemma tenths_nearest (n d : N) :
  (0 < d)%N ->
  (10 * n <= d * tenths n d + d / 2 /\ d * tenths n d <= 10 * n + d / 2)%N.
Proof.
  intros Hd. unfold tenths.
  pose proof (N.div_mod (10 * n) d ltac:(lia)) as Hdm.
  pose proof (N.mod_lt (10 * n) d ltac:(lia)) as Hlt.
  pose proof (N.div_mod d 2 ltac:(lia)) as Hd2.
  pose proof (N.mod_lt d 2 ltac:(lia)) as Hd2lt.
  set (q := (10 * n / d)%N) in *. set (r := (10 * n mod d)%N) in *.
  set (h := (d / 2)%N) in *. set (b := (d mod 2)%N) in *.
  destruct (N.ltb_spec (2 * r) d); [nia|].
  destruct (N.ltb_spec d (2 * r)); [nia|].
  destruct (N.even q); nia.
Qed.

(** X18.  The size label counts bytes below 1024, kibibytes below 1024 *
    1024 and mebibytes from there on, the last two to the nearest tenth.
    The rounding comes after the choice of the unit: a file within 51 bytes
    of a mebibyte is labelled "1024.0 KB", and one of exactly a mebibyte
    "1.0 MB". *)
Theorem size_label_units (file_size : N) :
  ((file_size < 1024)%N -> size_str file_size = pretty file_size +:+ " B")
  /\ ((1024 <= file_size < 1024 * 1024)%N ->
      size_str file_size = format_1f file_size 1024 +:+ " KB"
      /\ (10 * file_size <= 1024 * tenths file_size 1024 + 512)%N
      /\ (1024 * tenths file_size 1024 <= 10 * file_size + 512)%N)
  /\ ((1048525 <= file_size < 1024 * 1024)%N -> size_str file_size = "1024.0 KB")
  /\ size_str (1024 * 1024) = "1.0 MB".
Proof.
  split; [|split; [|split]].
  - intros H. unfold size_str. by rewrite (proj2 (N.ltb_lt _ _) H).
  - intros [H1 H2]. unfold size_str.
    rewrite (proj2 (N.ltb_ge _ _) H1), (proj2 (N.ltb_lt _ _) H2).
    split; [done|]. apply (tenths_nearest file_size 1024). lia.
  - intros [H1 H2]. unfold size_str.
    rewrite (proj2 (N.ltb_ge _ _)) by lia. rewrite (proj2 (N.ltb_lt _ _) H2).
    assert (Ht : tenths file_size 1024 = 10240%N).
    { pose proof (tenths_nearest file_size 1024 ltac:(lia)) as [Ha Hb].
      change (1024 / 2)%N with 512%N in Ha, Hb. lia. }
    unfold format_1f. rewrite Ht. vm_compute. reflexivity.
  - vm_compute. reflexivity.
Qed.

(** X19.  The endpoint never raises and always answers with the same five
    keys under the same file name.  It says "Loaded" only when the file
    exists and its size and date could be read, and then the record count is
    the number of rows after the header, or 0 when there is no row at all or
    the file could not be read: a file that cannot be read is still
    reported as loaded, with no record. *)
Theorem dataset_info_always_answers (fs : Files) :
  exists info,
    get_dataset_info fs = Ok info
    /\ dom info = {[ "filename"; "recordCount"; "lastUpdated"; "fileSize"; "status" ]}
    /\ info !! "filename" = Some (VStr "feedback_corpus.csv")
    /\ (info !! "status" = Some (VStr "Loaded") ->
        path_exists fs = true
        /\ exists file_stats last_modified,
             os_stat fs = Ok file_stats
             /\ fromtimestamp fs (st_mtime file_stats) = Ok last_modified
             /\ info !! "lastUpdated" = Some (VStr (strftime fs last_modified))
             /\ info !! "fileSize" = Some (VStr (size_str (st_size file_stats)))
             /\ info !! "recordCount"
                = Some (VInt match csv_rows fs with
                             | Ok (_ :: data) => length data
                             | _ => 0
                             end))
    /\ (path_exists fs = true ->
        forall file_stats last_modified,
          os_stat fs = Ok file_stats ->
          fromtimestamp fs (st_mtime file_stats) = Ok last_modified ->
          info !! "status" = Some (VStr "Loaded")).
Proof.
  assert (Hdom : forall a b c d e : value,
            dom ({[ "filename" := a; "recordCount" := b; "lastUpdated" := c;
                    "fileSize" := d; "status" := e ]} : gmap string value)
            = {[ "filename"; "recordCount"; "lastUpdated"; "fileSize"; "status" ]}).
  { intros. rewrite !dom_insert_L, dom_singleton_L. set_solver. }
  unfold get_dataset_info.
  destruct (path_exists fs) eqn:Hex; cbn [negb].
  - destruct (os_stat fs) as [file_stats|e] eqn:Hstat; cbn [mbind result_bind try_except].
    + destruct (fromtimestamp fs (st_mtime file_stats)) as [last_modified|e] eqn:Hts;
        cbn [mbind result_bind try_except].
      * assert (Hcount : try_except (rows ← csv_rows fs; count_rows rows)
                           (fun _ => mret 0)
                         = Ok match csv_rows fs with
                              | Ok (_ :: data) => length data
                              | _ => 0
                              end).
        { destruct (csv_rows fs) as [[|header data]|e]; reflexivity. }
        rewrite Hcount. cbn [mbind result_bind try_except mret result_ret].
        eexists. split; [reflexivity|]. split; [apply Hdom|].
        split; [reflexivity|]. split.
        -- intros _. split; [done|]. exists file_stats, last_modified.
           repeat split; first [reflexivity|assumption].
        -- intros _ fs' lm' _ _. reflexivity.
      * eexists. split; [reflexivity|]. split; [apply Hdom|].
        split; [reflexivity|]. split.
        -- intros H. exfalso. vm_compute in H. discriminate H.
        -- intros _ fs' lm' [= <-] Hlm. congruence.
    + eexists. split; [reflexivity|]. split; [apply Hdom|].
      split; [reflexivity|]. split.
      * intros H. exfalso. vm_compute in H. discriminate H.
      * intros _ fs' lm' [=].
  - eexists. split; [reflexivity|]. split; [apply Hdom|].
    split; [reflexivity|]. split.
    + intros H. exfalso. vm_compute in H. discriminate H.
    + intros [=].
Qed.

End MainFacts.
